(** * Slack productivity bot: the command-parsing and task-state core

    A shallow embedding of [src/main.py]: the deadline/title extractor
    ([parse_natural_language]), the task store ([tasks_db], [user_tasks]),
    the formatters and the slash-command dispatcher
    ([handle_slack_command]), followed by the properties of the
    specification that were checked against them.

    Conventions of the embedding.
    - Text is a [string] of 8-bit characters.  Character classes
      ([str.isspace], [\s], [\d], case folding) are the ones Python
      applies to code points below 128; the emoji of the replies are kept
      as the bytes of their UTF-8 encoding.  Input with code points from
      128 on is outside the embedding: Python classifies and folds some
      of them (U+00A0 as whitespace, U+0130 and U+0131 as "i" under
      [re.IGNORECASE]) in ways these 8-bit classes do not.
    - The two process-wide dictionaries are finite maps, threaded through
      every operation as a [state].
    - What a request reads from outside the program (the UUID drawn by
      [uuid.uuid4], the readings of [datetime.now], the verdict of
      [dateutil.parser.parse]) is gathered in an [env] record.
    - A [datetime] is kept as its proleptic Gregorian ordinal
      ([date.toordinal]) together with its time of day. *)

From Stdlib Require Import ZArith Ascii String List Bool Lia.
From stdpp Require Import gmap strings list fin_maps.

Open Scope string_scope.
Open Scope nat_scope.

#[local] Arguments String.append !_ _ : simpl nomatch.

(** ** Characters and text *)

Module Text.

Definition code (c : ascii) : nat := nat_of_ascii c.

(** [str.isspace] on the code points below 128: tab, line feed, vertical
    tab, form feed, carriage return, the four separators 28..31, space. *)
Definition is_space (c : ascii) : bool :=
  let n := code c in
  ((9 <=? n) && (n <=? 13)) || ((28 <=? n) && (n <=? 32)).

Definition is_digit (c : ascii) : bool :=
  let n := code c in (48 <=? n) && (n <=? 57).

Definition is_upper (c : ascii) : bool :=
  let n := code c in (65 <=? n) && (n <=? 90).

Definition is_lower (c : ascii) : bool :=
  let n := code c in (97 <=? n) && (n <=? 122).

Definition to_lower (c : ascii) : ascii :=
  if is_upper c then ascii_of_nat (code c + 32) else c.

Definition to_upper (c : ascii) : ascii :=
  if is_lower c then ascii_of_nat (code c - 32) else c.

Definition nonempty (s : string) : bool :=
  match s with EmptyString => false | String _ _ => true end.

(** [s.lower()] *)
Fixpoint lower (s : string) : string :=
  match s with
  | EmptyString => EmptyString
  | String c s' => String (to_lower c) (lower s')
  end.

(** [s.lstrip()], [s.rstrip()], [s.strip()] *)
Fixpoint lstrip (s : string) : string :=
  match s with
  | EmptyString => EmptyString
  | String c s' => if is_space c then lstrip s' else s
  end.

Fixpoint rstrip (s : string) : string :=
  match s with
  | EmptyString => EmptyString
  | String c s' =>
      match rstrip s' with
      | EmptyString => if is_space c then EmptyString else String c EmptyString
      | r => String c r
      end
  end.

Definition strip (s : string) : string := rstrip (lstrip s).

(** [s.startswith(p)] *)
Fixpoint startswith (p s : string) : bool :=
  match p, s with
  | EmptyString, _ => true
  | String a p', String b s' => Ascii.eqb a b && startswith p' s'
  | String _ _, EmptyString => false
  end.

(** [s[n:]] *)
Fixpoint drop (n : nat) (s : string) : string :=
  match n, s with
  | O, _ => s
  | S n', String _ s' => drop n' s'
  | S _, EmptyString => EmptyString
  end.

(** [s[:n]] *)
Fixpoint take (n : nat) (s : string) : string :=
  match n, s with
  | S n', String c s' => String c (take n' s')
  | _, _ => EmptyString
  end.

(** [sub in s] *)
Fixpoint contains (sub s : string) : bool :=
  startswith sub s ||
  match s with
  | EmptyString => false
  | String _ s' => contains sub s'
  end.

(** [s.partition(sep)] for a non-empty [sep]: the text before and after
    the leftmost occurrence, or [None] when there is none. *)
Fixpoint partition (sep s : string) : option (string * string) :=
  if startswith sep s then Some (EmptyString, drop (String.length sep) s)
  else match s with
       | EmptyString => None
       | String c s' =>
           match partition sep s' with
           | Some (a, b) => Some (String c a, b)
           | None => None
           end
       end.

(** [s.replace(old, new)]: the occurrences of [old] are found from left
    to right, each search resuming after the previous occurrence.  With
    an empty [old], [new] is put before every character and at the end. *)
Fixpoint replace_from (fuel : nat) (old new s : string) : string :=
  match fuel with
  | O => s
  | S fuel' =>
      match partition old s with
      | None => s
      | Some (a, b) => a +:+ new +:+ replace_from fuel' old new b
      end
  end.

Fixpoint intersperse (new s : string) : string :=
  match s with
  | EmptyString => new
  | String c s' => new +:+ String c (intersperse new s')
  end.

Definition replace (old new s : string) : string :=
  if nonempty old then replace_from (String.length s) old new s
  else intersperse new s.

(** [s.split(sep)] for a one-character separator (the only kind the
    program uses): never an empty list, empty pieces are kept. *)
Fixpoint split (sep : ascii) (s : string) : list string :=
  match s with
  | EmptyString => [EmptyString]
  | String c s' =>
      if Ascii.eqb c sep then EmptyString :: split sep s'
      else match split sep s' with
           | h :: t => String c h :: t
           | [] => [String c EmptyString]
           end
  end.

(** [sep.join(pieces)] *)
Fixpoint join (sep : string) (pieces : list string) : string :=
  match pieces with
  | [] => EmptyString
  | [p] => p
  | p :: rest => p +:+ sep +:+ join sep rest
  end.

(** The first whitespace-free word of a text and what follows it. *)
Fixpoint take_word (s : string) : string * string :=
  match s with
  | EmptyString => (EmptyString, EmptyString)
  | String c s' =>
      if is_space c then (EmptyString, s)
      else let (w, r) := take_word s' in (String c w, r)
  end.

(** [s.split(None, maxsplit)]: runs of whitespace separate the words; once
    [maxsplit] words are cut, the rest (leading whitespace skipped,
    trailing whitespace kept) is the last piece. *)
Fixpoint split_ws (maxsplit : nat) (s : string) : list string :=
  let s1 := lstrip s in
  if nonempty s1 then
    match maxsplit with
    | O => [s1]
    | S m => let (w, r) := take_word s1 in w :: split_ws m r
    end
  else [].

(** [s.title()]: a letter that follows a letter is lowered, a letter
    that does not is raised. *)
Fixpoint title_from (prev_cased : bool) (s : string) : string :=
  match s with
  | EmptyString => EmptyString
  | String c s' =>
      let cased := is_upper c || is_lower c in
      String (if prev_cased then to_lower c else to_upper c)
             (title_from cased s')
  end.

Definition title (s : string) : string := title_from false s.

(** [int(s)] for a run of decimal digits. *)
Definition digit_value (c : ascii) : Z := Z.of_nat (code c - 48).

Fixpoint int_from (acc : Z) (s : string) : Z :=
  match s with
  | EmptyString => acc
  | String c s' => int_from (10 * acc + digit_value c)%Z s'
  end.

Definition int (s : string) : Z := int_from 0 s.

(** [str(n)] for a natural number, and the same padded with zeros on the
    left to a width. *)
Definition digit_char (n : nat) : ascii := ascii_of_nat (48 + n mod 10).

Fixpoint digits_from (fuel n : nat) (acc : string) : string :=
  match fuel with
  | O => acc
  | S fuel' =>
      let acc' := String (digit_char n) acc in
      if n <? 10 then acc' else digits_from fuel' (n / 10) acc'
  end.

Definition str (n : nat) : string := digits_from (S n) n EmptyString.

Fixpoint zeros (n : nat) : string :=
  match n with O => EmptyString | S n' => String "0" (zeros n') end.

Definition zfill (width : nat) (s : string) : string :=
  zeros (width - String.length s) +:+ s.

End Text.

(** ** Regular expressions

    The fragment of Python's [re] syntax that the program's patterns are
    written in, with the backtracking order of [re]: [ends r s] lists, in
    the order in which the matcher would try them, the ways [r] can match
    a prefix of [s], each as the matched text and what is left. *)

Module Re.
Import Text.

Inductive regex : Type :=
| Eps                                    (* the empty pattern *)
| Chr (p : ascii -> bool)                (* one character of a class *)
| Cat (r1 r2 : regex)                    (* r1 r2 *)
| Alt (r1 r2 : regex)                    (* r1|r2 *)
| Many (greedy : bool) (p : ascii -> bool)  (* c* and c*? on a class *)
| Eos.                                   (* $ *)

(** Every way of cutting [s] after a run of characters of the class [p],
    the shortest run first. *)
Fixpoint runs (p : ascii -> bool) (s : string) : list (string * string) :=
  (EmptyString, s) ::
  match s with
  | EmptyString => []
  | String c s' =>
      if p c then map (fun '(m, r) => (String c m, r)) (runs p s') else []
  end.

Fixpoint ends (r : regex) (s : string) : list (string * string) :=
  match r with
  | Eps => [(EmptyString, s)]
  | Chr p =>
      match s with
      | String c s' => if p c then [(String c EmptyString, s')] else []
      | EmptyString => []
      end
  | Cat r1 r2 =>
      flat_map (fun '(m1, s1) =>
                  map (fun '(m2, s2) => (m1 +:+ m2, s2)) (ends r2 s1))
               (ends r1 s)
  | Alt r1 r2 => ends r1 s ++ ends r2 s
  | Many greedy p => if greedy then rev (runs p s) else runs p s
  | Eos =>
      (* the end of the text, or just before a final line feed *)
      match s with
      | EmptyString => [(EmptyString, s)]
      | String c EmptyString =>
          if Ascii.eqb c "010" then [(EmptyString, s)] else []
      | _ => []
      end
  end.

(** [re.search(r, s).group(0)]: the first way of matching at the leftmost
    position that has one; [None] when [re.search] returns [None]. *)
Fixpoint search (r : regex) (s : string) : option string :=
  match ends r s with
  | (m, _) :: _ => Some m
  | [] =>
      match s with
      | EmptyString => None
      | String _ s' => search r s'
      end
  end.

(** Pattern syntax.  Literals are compared without regard to case, as
    under [re.IGNORECASE]. *)
Definition ci (c : ascii) : regex :=
  Chr (fun x => Ascii.eqb (to_lower x) (to_lower c)).

Fixpoint lit (s : string) : regex :=
  match s with
  | EmptyString => Eps
  | String c EmptyString => ci c
  | String c s' => Cat (ci c) (lit s')
  end.

Fixpoint alts (rs : list regex) : regex :=
  match rs with
  | [] => Chr (fun _ => false)
  | [r] => r
  | r :: rs' => Alt r (alts rs')
  end.

Definition dot : ascii -> bool := fun c => negb (Ascii.eqb c "010").
Definition plus (greedy : bool) (p : ascii -> bool) : regex :=
  Cat (Chr p) (Many greedy p).
Definition opt (r : regex) : regex := Alt r Eps.
Definition seq (rs : list regex) : regex := fold_right Cat Eps rs.

Definition digit : regex := Chr is_digit.
Definition digit12 : regex := Cat digit (opt digit).       (* \d{1,2} *)
Definition digit4 : regex := seq [digit; digit; digit; digit].  (* \d{4} *)
Definition spaces : regex := plus true is_space.           (* \s+ *)
Definition digits : regex := plus true is_digit.           (* \d+ *)

(** A pattern that cannot match the empty text (a syntactic check). *)
Fixpoint nonnull (r : regex) : bool :=
  match r with
  | Chr _ => true
  | Cat r1 r2 => nonnull r1 || nonnull r2
  | Alt r1 r2 => nonnull r1 && nonnull r2
  | Eps | Many _ _ | Eos => false
  end.

End Re.

(** ** Dates and times *)

Module Datetime.
Import Text.

(** A [datetime.datetime]: the day as a proleptic Gregorian ordinal (day 1
    is 0001-01-01) and the time of day. *)
Record datetime : Type := mk {
  ordinal : Z;
  hour : nat;
  minute : nat;
  second : nat;
  microsecond : nat
}.

Definition MAXORDINAL : Z := 3652059.   (* 9999-12-31 *)
Definition MAXDELTA : Z := 999999999.   (* timedelta.max.days *)

(** [timedelta(days=n)]: [None] stands for its [OverflowError]. *)
Definition timedelta (days : Z) : option Z :=
  if (Z.abs days <=? MAXDELTA)%Z then Some days else None.

(** [d + delta] for a whole number of days: the time of day is kept and
    the day moves; [None] stands for the [OverflowError] outside the
    years 1..9999. *)
Definition add (d : datetime) (delta : Z) : option datetime :=
  let o := (ordinal d + delta)%Z in
  if (0 <? o)%Z && (o <=? MAXORDINAL)%Z
  then Some (mk o (hour d) (minute d) (second d) (microsecond d))
  else None.

Definition plus_days (d : datetime) (days : Z) : option datetime :=
  match timedelta days with
  | Some delta => add d delta
  | None => None
  end.

(** [d.replace(hour=h, minute=m)] *)
Definition replace_hour_minute (d : datetime) (h m : nat) : datetime :=
  mk (ordinal d) h m (second d) (microsecond d).

(** The calendar date of an ordinal, as [date.fromordinal] computes it. *)
Definition DAYS_IN_MONTH (leap : bool) (month : Z) : Z :=
  match month with
  | 2 => if leap then 29 else 28
  | 4 | 6 | 9 | 11 => 30
  | _ => 31
  end%Z.

Definition DAYS_BEFORE_MONTH (month : Z) : Z :=
  match month with
  | 1 => 0 | 2 => 31 | 3 => 59 | 4 => 90 | 5 => 120 | 6 => 151
  | 7 => 181 | 8 => 212 | 9 => 243 | 10 => 273 | 11 => 304 | _ => 334
  end%Z.

Definition ord2ymd (n : Z) : Z * Z * Z :=
  (let n := n - 1 in
   let n400 := n / 146097 in let n := n mod 146097 in
   let n100 := n / 36524 in let n := n mod 36524 in
   let n4 := n / 1461 in let n := n mod 1461 in
   let n1 := n / 365 in let n := n mod 365 in
   let year := n400 * 400 + 1 + n100 * 100 + n4 * 4 + n1 in
   if (n1 =? 4) || (n100 =? 4) then (year - 1, 12, 31)
   else
     let leapyear := (n1 =? 3) && (negb (n4 =? 24) || (n100 =? 3)) in
     let month := Z.shiftr (n + 50) 5 in
     let preceding :=
       DAYS_BEFORE_MONTH month
       + (if (2 <? month) && leapyear then 1 else 0) in
     if n <? preceding then
       let month := month - 1 in
       let preceding := preceding - DAYS_IN_MONTH leapyear month in
       (year, month, n - preceding + 1)
     else (year, month, n - preceding + 1))%Z.

Definition pad (width : nat) (n : Z) : string := zfill width (str (Z.to_nat n)).

(** [d.strftime('%Y-%m-%d %H:%M')] and [d.strftime('%m/%d')] *)
Definition strftime_ymd_hm (d : datetime) : string :=
  let '(y, m, dd) := ord2ymd (ordinal d) in
  pad 4 y +:+ "-" +:+ pad 2 m +:+ "-" +:+ pad 2 dd +:+ " "
  +:+ zfill 2 (str (hour d)) +:+ ":" +:+ zfill 2 (str (minute d)).

Definition strftime_md (d : datetime) : string :=
  let '(_, m, dd) := ord2ymd (ordinal d) in
  pad 2 m +:+ "/" +:+ pad 2 dd.

End Datetime.

Abbreviation datetime := Datetime.datetime.

(** ** What a request observes of the outside world *)

Record env : Type := {
  (** the text of the UUID that [uuid.uuid4()] draws *)
  uuid4 : string;
  (** the reading of [datetime.now()] inside [parse_natural_language] *)
  now_parse : datetime;
  (** the reading of [datetime.now()] inside [create_task] *)
  now_create : datetime;
  (** [dateutil.parser.parse]: [None] when it raises *)
  parser_parse : string -> option datetime
}.

(** ** The deadline/title extractor *)

Module TaskData.
(** The dictionary returned by [parse_natural_language]. *)
Record t : Type := mk {
  title : string;
  description : option string;
  deadline : option datetime
}.
End TaskData.

Section Extractor.
Import Text Re.

(* (by|due|deadline|until)\s+(.+?)(?:\s+|$) *)
Definition pattern_preposition : regex :=
  seq [alts [lit "by"; lit "due"; lit "deadline"; lit "until"];
       spaces; plus false dot; Alt spaces Eos].

(* (tomorrow|today|next week|next month) *)
Definition pattern_relative : regex :=
  alts [lit "tomorrow"; lit "today"; lit "next week"; lit "next month"].

(* (\d{1,2}/\d{1,2}/\d{4}) *)
Definition pattern_date_year : regex :=
  seq [digit12; lit "/"; digit12; lit "/"; digit4].

(* (\d{1,2}/\d{1,2}) *)
Definition pattern_date : regex := seq [digit12; lit "/"; digit12].

(* (in\s+\d+\s+days?) *)
Definition pattern_in_days : regex :=
  seq [lit "in"; spaces; digits; spaces; lit "day"; opt (lit "s")].

(* (monday|tuesday|wednesday|thursday|friday|saturday|sunday) *)
Definition pattern_weekday : regex :=
  alts [lit "monday"; lit "tuesday"; lit "wednesday"; lit "thursday";
        lit "friday"; lit "saturday"; lit "sunday"].

Definition deadline_patterns : list regex :=
  [pattern_preposition; pattern_relative; pattern_date_year; pattern_date;
   pattern_in_days; pattern_weekday].

(** The [for pattern in deadline_patterns] loop up to its [break]: the
    text matched by the first pattern that matches anywhere. *)
Fixpoint first_match (patterns : list regex) (text : string) : option string :=
  match patterns with
  | [] => None
  | pattern :: rest =>
      match search pattern text with
      | Some m => Some m
      | None => first_match rest text
      end
  end.

(** The [try] block: [None] is [deadline = None], whether an exception
    was swallowed or not. *)
Definition resolve_deadline (e : env) (deadline_text : string) : option datetime :=
  let l := lower deadline_text in
  if contains "tomorrow" l then Datetime.plus_days (now_parse e) 1
  else if contains "today" l then
    Some (Datetime.replace_hour_minute (now_parse e) 23 59)
  else if contains "next week" l then Datetime.plus_days (now_parse e) 7
  else if contains "next month" l then Datetime.plus_days (now_parse e) 30
  else if contains "in" l && contains "day" l then
    match search digits deadline_text with
    | Some d => Datetime.plus_days (now_parse e) (int d)
    | None => None
    end
  else parser_parse e deadline_text.

(** The text that titles and descriptions are read from: the input with
    the deadline text taken out, when there is one. *)
Definition remainder (deadline_text text : string) : string :=
  if nonempty deadline_text then strip (replace deadline_text "" text)
  else text.

(** Lines 90-104: the title and the description read from that text. *)
Definition title_and_description (text : string) : string * option string :=
  let lines := split "010" text in
  let title := strip (hd "" lines) in
  let sentences := split "." text in
  if (1 <? length lines) || (1 <? length sentences) then
    if 1 <? length lines then
      (title, Some (strip (join (String "010" "") (tl lines))))
    else if 1 <? length sentences then
      (strip (hd "" sentences), Some (strip (join "." (tl sentences))))
    else (title, None)
  else (title, None).

Definition parse_natural_language (e : env) (text : string) : TaskData.t :=
  let found := first_match deadline_patterns text in
  let deadline_text := default "" found in
  let deadline :=
    match found with
    | Some m => resolve_deadline e m
    | None => None
    end in
  let text := remainder deadline_text text in
  let '(title, description) := title_and_description text in
  TaskData.mk (if nonempty title then title else text) description deadline.

End Extractor.

(** ** The task store *)

Module Task.
(** The pydantic model [Task]. *)
Record t : Type := mk {
  id : string;
  title : string;
  description : option string;
  deadline : option datetime;
  status : string;              (* pending, in_progress, completed *)
  created_at : datetime;
  subtasks : list string
}.

Definition with_status (new_status : string) (task : t) : t :=
  mk (id task) (title task) (description task) (deadline task)
     new_status (created_at task) (subtasks task).
End Task.

(** The two module-level dictionaries. *)
Record state : Type := State {
  tasks_db : gmap string Task.t;
  user_tasks : gmap string (list string)     (* user_id -> task_ids *)
}.

Definition empty_state : state := State ∅ ∅.

(** [str(uuid.uuid4())[:8]] *)
Definition generate_task_id (e : env) : string := Text.take 8 (uuid4 e).

Definition create_task (e : env) (user_id : string) (task_data : TaskData.t)
    (s : state) : state * Task.t :=
  let task_id := generate_task_id e in
  let task :=
    Task.mk task_id (TaskData.title task_data)
            (TaskData.description task_data) (TaskData.deadline task_data)
            "pending" (now_create e) [] in
  let db := <[task_id := task]> (tasks_db s) in
  let ut :=
    match user_tasks s !! user_id with
    | None => <[user_id := []]> (user_tasks s)
    | Some _ => user_tasks s
    end in
  let ut := alter (fun ids => (ids ++ [task_id])%list) user_id ut in
  (State db ut, task).

(** ** Formatting *)

Definition nl : string := String "010" EmptyString.

Definition format_task_response (task : Task.t) : string :=
  let response := "✅ **Task Created:** " +:+ Task.title task +:+ nl in
  let response := response +:+ "📝 **ID:** " +:+ Task.id task +:+ nl in
  let response :=
    match Task.description task with
    | Some d =>
        if Text.nonempty d
        then response +:+ "📋 **Description:** " +:+ d +:+ nl
        else response
    | None => response
    end in
  let response :=
    match Task.deadline task with
    | Some d =>
        response +:+ "⏰ **Deadline:** " +:+ Datetime.strftime_ymd_hm d +:+ nl
    | None => response
    end in
  let response :=
    response +:+ "📊 **Status:** "
    +:+ Text.title (Text.replace "_" " " (Task.status task)) +:+ nl in
  response +:+ "🕐 **Created:** "
  +:+ Datetime.strftime_ymd_hm (Task.created_at task).

Definition status_emoji (status : string) : string :=
  if String.eqb status "pending" then "⏳"
  else if String.eqb status "in_progress" then "🔄"
  else if String.eqb status "completed" then "✅"
  else "❓".

(** One pass of the loop of [list_user_tasks]: what an indexed id adds to
    the response. *)
Definition list_line (db : gmap string Task.t) (task_id : string) : string :=
  match db !! task_id with
  | Some task =>
      status_emoji (Task.status task) +:+ " **" +:+ Task.id task +:+ "** - "
      +:+ Task.title task
      +:+ match Task.deadline task with
          | Some d => " (Due: " +:+ Datetime.strftime_md d +:+ ")"
          | None => ""
          end
      +:+ nl
  | None => ""
  end.

Definition list_header (ids : list string) : string :=
  "📋 **Your Tasks (" +:+ Text.str (length ids) +:+ "):**" +:+ nl +:+ nl.

Definition list_footer : string :=
  nl +:+ "💡 Use `/task show <task_id>` to see details or `/task update <task_id> <status>` to update status.".

Definition list_user_tasks (user_id : string) (s : state) : string :=
  match user_tasks s !! user_id with
  | None | Some [] =>
      "📭 You don't have any tasks yet! Use `/task create <task description>` to create one."
  | Some ids =>
      fold_left (fun response task_id => response +:+ list_line (tasks_db s) task_id)
                ids (list_header ids)
      +:+ list_footer
  end.

(** ** The command dispatcher *)

Record response : Type := Response {
  response_type : string;       (* "ephemeral" or "in_channel" *)
  text : string
}.

Definition ephemeral (t : string) : response := Response "ephemeral" t.
Definition in_channel (t : string) : response := Response "in_channel" t.

Definition help_text : string :=
  "🤖 **Slack Productivity Bot Help**" +:+ nl +:+ nl +:+
  "**Commands:**" +:+ nl +:+
  "• `/task create <description>` - Create a new task" +:+ nl +:+
  "• `/task list` - List all your tasks" +:+ nl +:+
  "• `/task show <task_id>` - Show task details" +:+ nl +:+
  "• `/task update <task_id> <status>` - Update task status (pending/in_progress/completed)" +:+ nl +:+
  "• `/task delete <task_id>` - Delete a task" +:+ nl +:+ nl +:+
  "**Examples:**" +:+ nl +:+
  "• `/task create Review project proposal by tomorrow`" +:+ nl +:+
  "• `/task create Set up meeting with client next week`" +:+ nl +:+
  "• `/task update abc123 completed`".

Definition not_found (task_id : string) : response :=
  ephemeral ("❌ Task '" +:+ task_id +:+ "' not found.").

Definition valid_statuses : list string := ["pending"; "in_progress"; "completed"].

Definition status_messages (new_status : string) : string :=
  if String.eqb new_status "pending" then "⏳ Task moved to pending"
  else if String.eqb new_status "in_progress" then "🔄 Task is now in progress"
  else "🎉 Task completed!".

(** [ids.remove(x)] for an [x] that occurs in [ids]: the first occurrence
    goes. *)
Fixpoint list_remove (x : string) (ids : list string) : list string :=
  match ids with
  | [] => []
  | y :: rest => if String.eqb y x then rest else y :: list_remove x rest
  end.

(** The body of the [create] branch once a description is there. *)
Definition do_create (e : env) (user_id : string) (parts : list string)
    (s : state) : state * response :=
  let task_input := Text.join " " (tl parts) in
  let parsed_data := parse_natural_language e task_input in
  let '(s', task) := create_task e user_id parsed_data s in
  (s', in_channel (format_task_response task)).

Definition do_update (task_id new_status : string) (s : state) : state * response :=
  match tasks_db s !! task_id with
  | None => (s, not_found task_id)
  | Some task =>
      if bool_decide (new_status ∈ valid_statuses) then
        let task' := Task.with_status new_status task in
        let s' := State (<[task_id := task']> (tasks_db s)) (user_tasks s) in
        (s', in_channel (status_messages new_status +:+ nl
                         +:+ format_task_response task'))
      else
        (s, ephemeral "❌ Status must be one of: pending, in_progress, completed")
  end.

(** The index after [user_id] deleted [task_id]: the first occurrence
    of the id leaves that user's list, when the user has a list and the id
    is in it. *)
Definition unindex (user_id task_id : string)
    (ut : gmap string (list string)) : gmap string (list string) :=
  match ut !! user_id with
  | Some ids =>
      if bool_decide (task_id ∈ ids)
      then <[user_id := list_remove task_id ids]> ut
      else ut
  | None => ut
  end.

Definition do_delete (user_id task_id : string) (s : state) : state * response :=
  match tasks_db s !! task_id with
  | None => (s, not_found task_id)
  | Some deleted_task =>
      (* Remove from user's task list *)
      let ut := unindex user_id task_id (user_tasks s) in
      (* Remove from tasks database *)
      (State (delete task_id (tasks_db s)) ut,
       ephemeral ("🗑️ Task '" +:+ Task.title deleted_task
                  +:+ "' has been deleted."))
  end.

(** The body of the [try] block: the routing on the first token.  No
    branch of the embedding raises, so the [except Exception] handler
    around it has no case here. *)
Definition route (e : env) (user_id : string) (parts : list string)
    (s : state) : state * response :=
  let action := Text.lower (hd "" parts) in
  if String.eqb action "create" then
    if length parts <? 2 then
      (s, ephemeral "❌ Please provide a task description. Example: `/task create Review documents by Friday`")
    else do_create e user_id parts s
  else if String.eqb action "list" then
    (s, ephemeral (list_user_tasks user_id s))
  else if String.eqb action "show" then
    if length parts <? 2 then
      (s, ephemeral "❌ Please provide a task ID. Example: `/task show abc123`")
    else
      let task_id := nth 1 parts "" in
      match tasks_db s !! task_id with
      | None => (s, not_found task_id)
      | Some task => (s, ephemeral (format_task_response task))
      end
  else if String.eqb action "update" then
    if length parts <? 3 then
      (s, ephemeral "❌ Please provide task ID and status. Example: `/task update abc123 completed`")
    else
      do_update (nth 1 parts "") (Text.lower (nth 2 parts "")) s
  else if String.eqb action "delete" then
    if length parts <? 2 then
      (s, ephemeral "❌ Please provide a task ID. Example: `/task delete abc123`")
    else do_delete user_id (nth 1 parts "") s
  else
    (s, ephemeral ("❌ Unknown action '" +:+ action
                   +:+ "'. Use `/task` without parameters to see help.")).

(** [handle_slack_command] on the two form fields it reads, [user_id]
    and [text]. *)
Definition handle_slack_command (e : env) (user_id form_text : string)
    (s : state) : state * response :=
  let text := Text.strip form_text in
  if negb (Text.nonempty text) then (s, ephemeral help_text)
  else route e user_id (Text.split_ws 2 text) s.

(** ** Notions the properties are stated with *)

(** The tokens of a command line and its action, as the dispatcher
    computes them. *)
Definition parts_of (form_text : string) : list string :=
  Text.split_ws 2 (Text.strip form_text).

Definition action_of (form_text : string) : string :=
  Text.lower (hd "" (parts_of form_text)).

(** A word: a non-empty text without whitespace. *)
Fixpoint no_space (s : string) : bool :=
  match s with
  | EmptyString => true
  | String c s' => negb (Text.is_space c) && no_space s'
  end.

Definition is_word (s : string) : bool := Text.nonempty s && no_space s.

(** Index integrity: every id listed for a user is a key of the store. *)
Definition integrity (s : state) : Prop :=
  map_Forall (fun _ ids => Forall (fun t => is_Some (tasks_db s !! t)) ids)
             (user_tasks s).

(** [t] is listed at most once, and only for [user_id]. *)
Definition sole_reference (user_id t : string) (s : state) : Prop :=
  forall v ids, user_tasks s !! v = Some ids ->
    if decide (v = user_id) then t ∉ list_remove t ids else t ∉ ids.

(** The states the process can be in: it starts with both dictionaries
    empty and handles one command after the other. *)
Inductive reachable : state -> Prop :=
| reachable_start : reachable empty_state
| reachable_step e user_id form_text s :
    reachable s ->
    reachable (fst (handle_slack_command e user_id form_text s)).

(** The commands that the dispatcher answers with an error. *)
Inductive error_case (s : state) (form_text : string) : Prop :=
| usage_error :
    action_of form_text ∈ ["create"; "show"; "delete"] ->
    length (parts_of form_text) < 2 ->
    error_case s form_text
| usage_error_update :
    action_of form_text = "update" ->
    length (parts_of form_text) < 3 ->
    error_case s form_text
| not_found_error :
    action_of form_text ∈ ["show"; "delete"] ->
    2 <= length (parts_of form_text) ->
    tasks_db s !! nth 1 (parts_of form_text) "" = None ->
    error_case s form_text
| not_found_error_update :
    action_of form_text = "update" ->
    3 <= length (parts_of form_text) ->
    tasks_db s !! nth 1 (parts_of form_text) "" = None ->
    error_case s form_text
| validation_error :
    action_of form_text = "update" ->
    3 <= length (parts_of form_text) ->
    Text.lower (nth 2 (parts_of form_text) "") ∉ valid_statuses ->
    error_case s form_text
| unknown_action_error :
    Text.strip form_text <> "" ->
    action_of form_text ∉ ["create"; "list"; "show"; "update"; "delete"] ->
    error_case s form_text.

(** The tasks that the ids of an index entry still denote, in order. *)
Definition live_tasks (db : gmap string Task.t) (ids : list string) : list Task.t :=
  omap (fun task_id => db !! task_id) ids.

Definition task_line (task : Task.t) : string :=
  status_emoji (Task.status task) +:+ " **" +:+ Task.id task +:+ "** - "
  +:+ Task.title task
  +:+ match Task.deadline task with
      | Some d => " (Due: " +:+ Datetime.strftime_md d +:+ ")"
      | None => ""
      end
  +:+ nl.

Definition task_lines (tasks : list Task.t) : string :=
  fold_right (fun task rest => task_line task +:+ rest) "" tasks.

(** [r] is [s] with every occurrence of [f] taken out, the occurrences
    being found from left to right without overlap. *)
Inductive removed_all (f : string) : string -> string -> Prop :=
| removed_none s :
    (forall a b, s <> a +:+ f +:+ b) ->
    removed_all f s s
| removed_next a b r :
    (forall a' b', a +:+ f +:+ b = a' +:+ f +:+ b' ->
                   String.length a <= String.length a') ->
    removed_all f b r ->
    removed_all f (a +:+ f +:+ b) (a +:+ r).

(** The specification's step 3, in its words: only the first occurrence
    of the fragment is taken out. *)
Definition spec_remove_first (f s : string) : string :=
  match Text.partition f s with
  | Some (a, b) => a +:+ b
  | None => s
  end.

Definition spec_remainder (deadline_text text : string) : string :=
  if Text.nonempty deadline_text
  then Text.strip (spec_remove_first deadline_text text)
  else text.

(** One of the four relative words occurs in a (lowered) fragment. *)
Definition relative_word (l : string) : bool :=
  Text.contains "tomorrow" l || Text.contains "today" l
  || Text.contains "next week" l || Text.contains "next month" l.

(** The specification's step 2, in its words: the four relative words,
    then a fragment of the form "in N days", then, for any other
    fragment, the generic date parser. *)
Definition spec_resolve_deadline (e : env) (deadline_text : string) : option datetime :=
  let l := Text.lower deadline_text in
  if Text.contains "tomorrow" l then Datetime.plus_days (now_parse e) 1
  else if Text.contains "today" l then
    Some (Datetime.replace_hour_minute (now_parse e) 23 59)
  else if Text.contains "next week" l then Datetime.plus_days (now_parse e) 7
  else if Text.contains "next month" l then Datetime.plus_days (now_parse e) 30
  else
    match Re.search pattern_in_days deadline_text with
    | Some _ =>
        match Re.search Re.digits deadline_text with
        | Some d => Datetime.plus_days (now_parse e) (Text.int d)
        | None => None
        end
    | None => parser_parse e deadline_text
    end.

(** The specification's steps 4 and 5 for the lines of a remainder, in
    its words: the non-empty lines, the first one as title, the others
    joined as description, the full remainder when the title is empty. *)
Definition spec_nonempty_lines (text : string) : list string :=
  filter (fun l => Text.nonempty l = true) (Text.split "010" text).

Definition spec_title (text : string) : string :=
  let title := Text.strip (hd "" (spec_nonempty_lines text)) in
  if Text.nonempty title then title else text.

Definition spec_description (text : string) : option string :=
  let lines := spec_nonempty_lines text in
  if 1 <? length lines then Some (Text.strip (Text.join nl (tl lines)))
  else None.


(** The task that [create_task] builds. *)
Definition new_task (e : env) (task_data : TaskData.t) : Task.t :=
  Task.mk (generate_task_id e) (TaskData.title task_data)
          (TaskData.description task_data) (TaskData.deadline task_data)
          "pending" (now_create e) [].

(** What one command can do to the state: nothing, one creation, one
    change of status, or one deletion. *)
Inductive transition (e : env) (user_id : string) (parts : list string)
    (s : state) : state -> Prop :=
| tr_none : transition e user_id parts s s
| tr_create :
    Text.lower (hd "" parts) = "create" ->
    2 <= length parts ->
    transition e user_id parts s
      (fst (create_task e user_id
              (parse_natural_language e (Text.join " " (tl parts))) s))
| tr_update task new_status :
    Text.lower (hd "" parts) = "update" ->
    3 <= length parts ->
    tasks_db s !! nth 1 parts "" = Some task ->
    new_status = Text.lower (nth 2 parts "") ->
    new_status ∈ valid_statuses ->
    transition e user_id parts s
      (State (<[nth 1 parts "" := Task.with_status new_status task]> (tasks_db s))
             (user_tasks s))
| tr_delete task :
    Text.lower (hd "" parts) = "delete" ->
    2 <= length parts ->
    tasks_db s !! nth 1 parts "" = Some task ->
    transition e user_id parts s
      (State (delete (nth 1 parts "") (tasks_db s))
             (unindex user_id (nth 1 parts "") (user_tasks s))).

(** ** Sample requests *)

Definition noon : datetime := Datetime.mk 739000 12 0 0 0.
Definition later : datetime := Datetime.mk 739000 12 0 7 250.

Definition no_parse : string -> option datetime := fun _ => None.

Definition env_a : env :=
  {| uuid4 := "3f2a9c1e-7b4d-4e8a-9c55-0a1b2c3d4e5f";
     now_parse := noon; now_create := later; parser_parse := no_parse |}.

(** A second draw whose text differs from the first one after its first
    eight characters only. *)
Definition env_b : env :=
  {| uuid4 := "3f2a9c1e-1111-4222-8333-444455556666";
     now_parse := later; now_create := later; parser_parse := no_parse |}.

Definition alice : string := "U01ALICE".
Definition bob : string := "U02BOB".

(** Alice creates a task. *)
Definition state_a : state :=
  fst (handle_slack_command env_a alice "create Review proposal by tomorrow" empty_state).

(** Then Bob deletes it. *)
Definition state_ab : state :=
  fst (handle_slack_command env_a bob "delete 3f2a9c1e" state_a).

(** The task that Alice's command stores. *)
Definition task_a : Task.t :=
  Task.mk "3f2a9c1e" "Review proposal" None
          (Some (Datetime.mk 739001 12 0 0 0)) "pending" later [].

(** Then, instead, Bob creates a task while the generator draws [env_b]. *)
Definition state_a_b : state :=
  fst (handle_slack_command env_b bob "create Book flights" state_a).

Definition task_b : Task.t :=
  Task.mk "3f2a9c1e" "Book flights" None None "pending" later [].

(** Inputs of the extractor. *)
Definition text_today_twice : string := "Pay rent today and call the bank today".
Definition text_blank_first : string := nl +:+ "foo".
Definition text_blank_inside : string :=
  "Plan trip" +:+ nl +:+ "Book flights" +:+ nl +:+ nl +:+ "and hotel".
Definition text_deadline_5days : string := "Ship release deadline 5days".
Definition text_in_3_days : string := "Submit report in 3 days".

(** ** The health check *)

(** The dictionary that [root] returns. *)
Record health : Type := Health {
  message : string;
  total_tasks : nat;
  total_users : nat
}.

Definition root (s : state) : health :=
  Health "Slack Productivity Bot API is running!"
         (size (tasks_db s)) (size (user_tasks s)).

(** ** Further notions *)

(** A text of whitespace only (the empty text included). *)
Fixpoint all_space (s : string) : bool :=
  match s with
  | EmptyString => true
  | String c s' => Text.is_space c && all_space s'
  end.

(** What holds of a stored task in every state the process reaches: it is
    stored under its own id, its status is one of the three, and it has
    no subtasks. *)
Definition well_formed_task (task_id : string) (task : Task.t) : Prop :=
  Task.id task = task_id
  /\ Task.status task ∈ valid_statuses
  /\ Task.subtasks task = [].

Definition well_formed (s : state) : Prop :=
  map_Forall well_formed_task (tasks_db s).

(** Every id is listed at most once, and for one user only. *)
Definition owned_once (s : state) : Prop :=
  forall v ids, user_tasks s !! v = Some ids ->
    NoDup ids
    /\ forall w ids', w <> v -> user_tasks s !! w = Some ids' ->
         forall t, t ∈ ids -> t ∉ ids'.

(** The id that a create would draw is listed nowhere yet. *)
Definition fresh_id (e : env) (s : state) : Prop :=
  forall v ids, user_tasks s !! v = Some ids -> generate_task_id e ∉ ids.

(** Every character of a text is of a class. *)
Fixpoint all_chars (p : ascii -> bool) (s : string) : bool :=
  match s with
  | EmptyString => true
  | String c s' => p c && all_chars p s'
  end.

(** A character other than "t" and "e". *)
Definition not_t_e (c : ascii) : bool :=
  negb (Ascii.eqb "t" c) && negb (Ascii.eqb "e" c).

(** Every character class of a pattern lies within a class [q]. *)
Fixpoint regex_chars (q : ascii -> bool) (r : Re.regex) : Prop :=
  match r with
  | Re.Chr p | Re.Many _ p => forall c, p c = true -> q c = true
  | Re.Cat r1 r2 | Re.Alt r1 r2 => regex_chars q r1 /\ regex_chars q r2
  | Re.Eps | Re.Eos => True
  end.

(** A digit or a slash. *)
Definition digit_or_slash (c : ascii) : bool :=
  Text.is_digit c || Ascii.eqb c "/".

Definition weekdays : list string :=
  ["monday"; "tuesday"; "wednesday"; "thursday"; "friday"; "saturday"; "sunday"].

(** A character of code point below 128. *)
Definition is_ascii (c : ascii) : bool := Text.code c <? 128.

(** ** Further sample requests *)

Definition next_day : datetime := Datetime.mk 739001 9 30 0 0.

(** A third draw with the first eight characters of [env_a]'s, a day
    later. *)
Definition env_c : env :=
  {| uuid4 := "3f2a9c1e-2222-4333-9444-555566667777";
     now_parse := next_day; now_create := next_day; parser_parse := no_parse |}.

(** After Alice's task, Bob creates one while the generator draws [env_c]. *)
Definition state_a_c : state :=
  fst (handle_slack_command env_c bob "create Book flights next week" state_a).

Definition task_c : Task.t :=
  Task.mk "3f2a9c1e" "Book flights" None
          (Some (Datetime.mk 739008 9 30 0 0)) "pending" next_day [].

(** A draw with other first eight characters. *)
Definition env_d : env :=
  {| uuid4 := "9b8c7d6e-5f4a-4b3c-8d2e-1f0a9b8c7d6e";
     now_parse := next_day; now_create := next_day; parser_parse := no_parse |}.

(** * Properties *)

(** ** Text *)

Section TextFacts.
Import Text.

Lemma app_nil_r (s : string) : s +:+ "" = s.
Proof. induction s as [|c s IH]; simpl; [reflexivity | now rewrite IH]. Qed.

Lemma app_assoc (a b c : string) : a +:+ (b +:+ c) = (a +:+ b) +:+ c.
Proof. induction a as [|x a IH]; simpl; [reflexivity | now rewrite IH]. Qed.

Lemma length_app (a b : string) :
  String.length (a +:+ b) = String.length a + String.length b.
Proof. induction a as [|x a IH]; simpl; [reflexivity | now rewrite IH]. Qed.

Lemma nonempty_true (s : string) : nonempty s = true <-> s <> "".
Proof. destruct s; simpl; split; intros; congruence. Qed.

Lemma nonempty_app_r (a w : string) : nonempty w = true -> nonempty (a +:+ w) = true.
Proof. destruct a; simpl; auto. Qed.

Lemma is_word_cons (c : ascii) (w : string) :
  is_word (String c w) = true -> is_space c = false /\ no_space w = true.
Proof.
  unfold is_word; simpl. intros H.
  apply andb_prop in H as [Hc Hw]. split; [|exact Hw].
  now apply negb_true_iff.
Qed.

Lemma is_word_no_space (w : string) : is_word w = true -> no_space w = true.
Proof. unfold is_word. intros H. now apply andb_prop in H. Qed.

Lemma is_word_nonempty (w : string) : is_word w = true -> nonempty w = true.
Proof. unfold is_word. intros H. now apply andb_prop in H. Qed.

Lemma lstrip_word (w r : string) : is_word w = true -> lstrip (w +:+ r) = w +:+ r.
Proof.
  destruct w as [|c w]; [discriminate|]. intros H.
  apply is_word_cons in H as [Hc _]. simpl. now rewrite Hc.
Qed.

Lemma rstrip_word (w : string) : is_word w = true -> rstrip w = w.
Proof.
  induction w as [|c w IH]; [discriminate|]. intros H.
  apply is_word_cons in H as [Hc Hw]. simpl.
  destruct w as [|d w].
  - simpl. now rewrite Hc.
  - rewrite IH; [reflexivity|]. unfold is_word. simpl. exact Hw.
Qed.

Lemma rstrip_app_word (a w : string) :
  is_word w = true -> rstrip (a +:+ w) = a +:+ w.
Proof.
  intros Hw. induction a as [|c a IH]; simpl.
  - now apply rstrip_word.
  - rewrite IH. pose proof (nonempty_app_r a w (is_word_nonempty _ Hw)) as Hne.
    destruct (a +:+ w); [discriminate | reflexivity].
Qed.

(** A text that starts and ends with a word is not changed by [strip]. *)
Lemma strip_words (w1 m w2 : string) :
  is_word w1 = true -> is_word w2 = true ->
  strip (w1 +:+ m +:+ w2) = w1 +:+ m +:+ w2.
Proof.
  intros H1 H2. unfold strip. rewrite lstrip_word by exact H1.
  rewrite app_assoc. now apply rstrip_app_word.
Qed.

Lemma strip_word (w : string) : is_word w = true -> strip w = w.
Proof.
  intros H. unfold strip. rewrite <- (app_nil_r w) at 1.
  rewrite lstrip_word by exact H. rewrite app_nil_r. now apply rstrip_word.
Qed.

Lemma take_word_app (w r : string) :
  no_space w = true ->
  match r with EmptyString => True | String c _ => is_space c = true end ->
  take_word (w +:+ r) = (w, r).
Proof.
  intros Hw Hr. induction w as [|c w IH]; simpl.
  - destruct r as [|d r]; [reflexivity|]. simpl. now rewrite Hr.
  - simpl in Hw. apply andb_prop in Hw as [Hc Hw].
    apply negb_true_iff in Hc. rewrite Hc, (IH Hw). reflexivity.
Qed.

Lemma take_word_word (w : string) : no_space w = true -> take_word w = (w, "").
Proof.
  intros H. rewrite <- (app_nil_r w) at 1. now apply take_word_app.
Qed.

Lemma split_ws_S (m : nat) (s : string) :
  split_ws (S m) s =
  if nonempty (lstrip s)
  then let (w, r) := take_word (lstrip s) in w :: split_ws m r
  else [].
Proof. reflexivity. Qed.

Lemma split_ws_O (s : string) :
  split_ws 0 s = if nonempty (lstrip s) then [lstrip s] else [].
Proof. reflexivity. Qed.

Lemma split_ws_last_word (m : nat) (w : string) :
  is_word w = true -> split_ws m w = [w].
Proof.
  intros H.
  assert (Hl : lstrip w = w).
  { rewrite <- (app_nil_r w). now apply lstrip_word. }
  destruct m as [|m].
  - rewrite split_ws_O, Hl. now rewrite (is_word_nonempty _ H).
  - rewrite split_ws_S, Hl, (is_word_nonempty _ H).
    rewrite take_word_word by (now apply is_word_no_space).
    f_equal. now destruct m.
Qed.

Lemma split_ws_word (m : nat) (w r : string) :
  is_word w = true -> nonempty r = true ->
  split_ws (S m) (w +:+ " " +:+ r) = w :: split_ws m r.
Proof.
  intros Hw Hr. rewrite split_ws_S, lstrip_word by exact Hw.
  rewrite nonempty_app_r by (now apply nonempty_app_r).
  rewrite take_word_app; [|now apply is_word_no_space|reflexivity].
  f_equal. destruct m; [rewrite !split_ws_O | rewrite !split_ws_S]; reflexivity.
Qed.

(** The tokens of "w1 w2" and of "w1 w2 w3". *)
Lemma parts_of_two (w1 w2 : string) :
  is_word w1 = true -> is_word w2 = true ->
  parts_of (w1 +:+ " " +:+ w2) = [w1; w2].
Proof.
  intros H1 H2. unfold parts_of. rewrite strip_words by assumption.
  rewrite split_ws_word by (auto using is_word_nonempty).
  now rewrite split_ws_last_word.
Qed.

Lemma parts_of_three (w1 w2 w3 : string) :
  is_word w1 = true -> is_word w2 = true -> is_word w3 = true ->
  parts_of (w1 +:+ " " +:+ w2 +:+ " " +:+ w3) = [w1; w2; w3].
Proof.
  intros H1 H2 H3. unfold parts_of.
  replace (w1 +:+ " " +:+ w2 +:+ " " +:+ w3)
    with (w1 +:+ (" " +:+ w2 +:+ " ") +:+ w3)
    by (now rewrite <- !app_assoc).
  rewrite strip_words by assumption.
  replace (w1 +:+ (" " +:+ w2 +:+ " ") +:+ w3)
    with (w1 +:+ " " +:+ w2 +:+ " " +:+ w3)
    by (now rewrite <- !app_assoc).
  rewrite split_ws_word
    by (auto using is_word_nonempty, nonempty_app_r).
  rewrite split_ws_word by (auto using is_word_nonempty).
  now rewrite split_ws_last_word.
Qed.

End TextFacts.

(** ** Occurrences of a text in another *)

Section OccurrenceFacts.
Import Text.

Lemma startswith_app (p r : string) : startswith p (p +:+ r) = true.
Proof.
  induction p as [|c p IH]; simpl; [reflexivity|].
  now rewrite Ascii.eqb_refl, IH.
Qed.

Lemma startswith_true (p s : string) :
  startswith p s = true -> s = p +:+ drop (String.length p) s.
Proof.
  revert s. induction p as [|c p IH]; intros s H; simpl in *; [reflexivity|].
  destruct s as [|d s]; [discriminate|].
  apply andb_prop in H as [Hc Hs]. apply Ascii.eqb_eq in Hc as ->.
  simpl. f_equal. now apply IH.
Qed.

Lemma partition_eq (sep s : string) :
  partition sep s =
  if startswith sep s then Some ("", drop (String.length sep) s)
  else match s with
       | EmptyString => None
       | String c s' =>
           match partition sep s' with
           | Some (a, b) => Some (String c a, b)
           | None => None
           end
       end.
Proof. destruct s; reflexivity. Qed.

Lemma partition_Some (f s a b : string) :
  partition f s = Some (a, b) -> s = a +:+ f +:+ b.
Proof.
  revert a. induction s as [|c s IH]; intros a; rewrite partition_eq;
    destruct (startswith f _) eqn:Hp.
  - intros [= <- <-]. now apply startswith_true.
  - discriminate.
  - intros [= <- <-]. now apply startswith_true.
  - destruct (partition f s) as [[a0 b0]|]; [|discriminate].
    intros [= <- <-]. simpl. f_equal. now apply IH.
Qed.

Lemma partition_leftmost (f s a b : string) :
  partition f s = Some (a, b) ->
  forall a' b', s = a' +:+ f +:+ b' -> String.length a <= String.length a'.
Proof.
  revert a. induction s as [|c s IH]; intros a; rewrite partition_eq;
    destruct (startswith f _) eqn:Hp.
  - intros [= <- <-] a' b' _. simpl. lia.
  - discriminate.
  - intros [= <- <-] a' b' _. simpl. lia.
  - destruct (partition f s) as [[a0 b0]|] eqn:Hs; [|discriminate].
    intros [= <- <-] a' b' Heq. destruct a' as [|d a'].
    + simpl in Heq. rewrite Heq, startswith_app in Hp. discriminate.
    + simpl in Heq. injection Heq as -> Heq. simpl.
      apply le_n_S. now apply (IH a0 eq_refl a' b').
Qed.

Lemma partition_None (f s : string) :
  partition f s = None -> forall a b, s <> a +:+ f +:+ b.
Proof.
  induction s as [|c s IH]; rewrite partition_eq;
    destruct (startswith f _) eqn:Hp; try discriminate.
  - intros _ a b Heq. destruct a as [|d a]; [|discriminate].
    simpl in Heq. rewrite Heq, startswith_app in Hp. discriminate.
  - destruct (partition f s) as [[a0 b0]|] eqn:Hs; [discriminate|].
    intros _ a b Heq. destruct a as [|d a].
    + simpl in Heq. rewrite Heq, startswith_app in Hp. discriminate.
    + simpl in Heq. injection Heq as -> Heq. now apply (IH eq_refl a b).
Qed.

(** With enough fuel, [replace_from] takes out every occurrence. *)
Lemma replace_from_removed_all (f : string) (fuel : nat) (s : string) :
  f <> "" -> String.length s <= fuel ->
  removed_all f s (replace_from fuel f "" s).
Proof.
  intros Hf. revert s. induction fuel as [|fuel IH]; intros s Hl.
  - destruct s; [|simpl in Hl; lia]. simpl. apply removed_none.
    intros a b Heq. destruct a; [|discriminate]. destruct f; [congruence|discriminate].
  - simpl. destruct (partition f s) as [[a b]|] eqn:Hp.
    + pose proof (partition_Some _ _ _ _ Hp) as ->.
      simpl. apply removed_next.
      * intros a' b' Heq. now apply (partition_leftmost f _ a b Hp a' b').
      * apply IH. rewrite !length_app in Hl.
        destruct f; [congruence|]. simpl in Hl. lia.
    + apply removed_none. now apply partition_None.
Qed.

Lemma replace_removed_all (f s : string) :
  f <> "" -> removed_all f s (replace f "" s).
Proof.
  intros Hf. unfold replace. apply nonempty_true in Hf as Hne. rewrite Hne.
  now apply replace_from_removed_all.
Qed.

Lemma app_inv_length (a a' b b' : string) :
  a +:+ b = a' +:+ b' -> String.length a = String.length a' ->
  a = a' /\ b = b'.
Proof.
  revert a'. induction a as [|c a IH]; intros [|c' a'] Heq Hl;
    try discriminate; simpl in *.
  - now split.
  - injection Heq as -> Heq. injection Hl as Hl.
    destruct (IH a' Heq Hl) as [-> ->]. now split.
Qed.

(** [removed_all] names one text. *)
Lemma removed_all_functional (f s r1 r2 : string) :
  removed_all f s r1 -> removed_all f s r2 -> r1 = r2.
Proof.
  intros H1. revert r2. induction H1 as [s Hno|a b r Hleft H1 IH]; intros r2 H2.
  - inversion H2 as [s' Hno'|a' b' r' Hleft' H2' Heq]; subst; [reflexivity|].
    now destruct (Hno a' b').
  - inversion H2 as [s' Hno'|a' b' r' Hleft' H2' Heq]; subst.
    + now destruct (Hno' a b).
    + assert (Hl : String.length a' = String.length a).
      { apply Nat.le_antisymm; [apply (Hleft' a b Heq)|].
        apply (Hleft a' b'). now symmetry. }
      destruct (app_inv_length _ _ _ _ Heq Hl) as [-> Hfb].
      apply String.app_inj in Hfb. subst b'. f_equal. now apply IH.
Qed.

End OccurrenceFacts.

(** ** What a pattern matches *)

Section RegexFacts.
Import Text Re.

Lemma runs_sound (p : ascii -> bool) (s m r : string) :
  In (m, r) (runs p s) -> s = m +:+ r.
Proof.
  revert m. induction s as [|c s IH]; intros m; simpl.
  - intros [[= <- <-]|[]]. reflexivity.
  - intros [[= <- <-]|H]; [reflexivity|].
    destruct (p c); [|destruct H].
    apply in_map_iff in H as [[m0 r0] [[= <- <-] H]].
    simpl. f_equal. now apply IH.
Qed.

(** A way of matching splits the text into what is matched and the rest. *)
Lemma ends_sound (r : regex) (s m rest : string) :
  In (m, rest) (ends r s) -> s = m +:+ rest.
Proof.
  revert s m rest. induction r as [|p|r1 IH1 r2 IH2|r1 IH1 r2 IH2|g p|];
    intros s m rest; simpl.
  - intros [[= <- <-]|[]]. reflexivity.
  - destruct s as [|c s]; [intros []|].
    destruct (p c); [|intros []]. intros [[= <- <-]|[]]. reflexivity.
  - intros H. apply in_flat_map in H as [[m1 s1] [H1 H]].
    apply in_map_iff in H as [[m2 s2] [[= <- <-] H2]].
    apply IH1 in H1 as ->. apply IH2 in H2 as ->. now rewrite app_assoc.
  - intros H. apply in_app_or in H as [H|H]; [now apply IH1|now apply IH2].
  - destruct g; [rewrite <- in_rev|]; apply runs_sound.
  - destruct s as [|c [|d s]].
    + intros [[= <- <-]|[]]. reflexivity.
    + destruct (Ascii.eqb c "010"); [|intros []].
      intros [[= <- <-]|[]]. reflexivity.
    + intros [].
Qed.

Lemma app_empty (a b : string) : a +:+ b = "" -> a = "" /\ b = "".
Proof. destruct a; [simpl; auto|discriminate]. Qed.

Lemma ends_nonnull (r : regex) (s m rest : string) :
  nonnull r = true -> In (m, rest) (ends r s) -> m <> "".
Proof.
  revert s m rest. induction r as [|p|r1 IH1 r2 IH2|r1 IH1 r2 IH2|g p|];
    intros s m rest Hn; simpl in *; try discriminate.
  - destruct s as [|c s]; [intros []|].
    destruct (p c); [|intros []]. intros [[= <- <-]|[]]. discriminate.
  - intros H. apply in_flat_map in H as [[m1 s1] [H1 H]].
    apply in_map_iff in H as [[m2 s2] [[= <- <-] H2]].
    intros He. apply app_empty in He as [-> ->].
    apply orb_prop in Hn as [Hn|Hn].
    + now apply (IH1 _ _ _ Hn H1).
    + now apply (IH2 _ _ _ Hn H2).
  - apply andb_prop in Hn as [Hn1 Hn2].
    intros H. apply in_app_or in H as [H|H]; eauto.
Qed.

(** What [search] returns occurs in the text. *)
Lemma search_occurs (r : regex) (s m : string) :
  search r s = Some m -> exists a b, s = a +:+ m +:+ b.
Proof.
  induction s as [|c s IH]; simpl.
  - destruct (ends r "") as [|[m0 r0] l] eqn:He; [discriminate|].
    intros [= <-]. exists "", r0. simpl. apply (ends_sound r).
    rewrite He. now left.
  - destruct (ends r (String c s)) as [|[m0 r0] l] eqn:He.
    + intros H. destruct (IH H) as (a & b & ->). now exists (String c a), b.
    + intros [= <-]. exists "", r0. simpl. apply (ends_sound r).
      rewrite He. now left.
Qed.

Lemma search_nonempty (r : regex) (s m : string) :
  nonnull r = true -> search r s = Some m -> m <> "".
Proof.
  intros Hn. induction s as [|c s IH]; simpl.
  - destruct (ends r "") as [|[m0 r0] l] eqn:He; [discriminate|].
    intros [= <-]. apply (ends_nonnull r "" m0 r0 Hn). rewrite He. now left.
  - destruct (ends r (String c s)) as [|[m0 r0] l] eqn:He; [exact IH|].
    intros [= <-]. apply (ends_nonnull r (String c s) m0 r0 Hn).
    rewrite He. now left.
Qed.

Lemma first_match_occurs (ps : list regex) (text f : string) :
  first_match ps text = Some f -> exists a b, text = a +:+ f +:+ b.
Proof.
  induction ps as [|p ps IH]; simpl; [discriminate|].
  destruct (search p text) as [m|] eqn:Hs; [|exact IH].
  intros [= <-]. now apply (search_occurs p).
Qed.

Lemma first_match_nonempty (ps : list regex) (text f : string) :
  forallb nonnull ps = true -> first_match ps text = Some f -> f <> "".
Proof.
  induction ps as [|p ps IH]; simpl; [discriminate|]. intros Hn.
  apply andb_prop in Hn as [Hp Hps].
  destruct (search p text) as [m|] eqn:Hs; [|now apply IH].
  intros [= <-]. now apply (search_nonempty p text).
Qed.

(** The deadline text is never empty and always occurs in the input. *)
Lemma deadline_text_nonempty (text f : string) :
  first_match deadline_patterns text = Some f -> f <> "".
Proof. now apply first_match_nonempty. Qed.

End RegexFacts.

(** ** The dispatcher, command by command *)

Section DispatcherFacts.
Import Text.

Lemma handle_route (e : env) (user_id form_text : string) (s : state) :
  strip form_text <> "" ->
  handle_slack_command e user_id form_text s
  = route e user_id (parts_of form_text) s.
Proof.
  intros H. unfold handle_slack_command, parts_of.
  apply nonempty_true in H. now rewrite H.
Qed.

Lemma handle_help (e : env) (user_id form_text : string) (s : state) :
  strip form_text = "" ->
  handle_slack_command e user_id form_text s = (s, ephemeral help_text).
Proof. intros H. unfold handle_slack_command. now rewrite H. Qed.

Lemma parts_of_empty (form_text : string) :
  strip form_text = "" -> parts_of form_text = [].
Proof. intros H. unfold parts_of. now rewrite H. Qed.

(** Every command is one [transition]. *)
Lemma route_transition (e : env) (user_id : string) (parts : list string)
    (s : state) :
  transition e user_id parts s (fst (route e user_id parts s)).
Proof.
  unfold route.
  destruct (String.eqb_spec (lower (hd "" parts)) "create") as [Ha|_].
  { destruct (Nat.ltb_spec (length parts) 2); [apply tr_none|].
    unfold do_create.
    destruct (create_task e user_id _ s) as [s' task] eqn:Hc.
    change s' with (fst (s', task)). rewrite <- Hc. now apply tr_create. }
  destruct (String.eqb_spec (lower (hd "" parts)) "list") as [_|_];
    [apply tr_none|].
  destruct (String.eqb_spec (lower (hd "" parts)) "show") as [_|_].
  { destruct (length parts <? 2); [apply tr_none|].
    destruct (tasks_db s !! nth 1 parts ""); apply tr_none. }
  destruct (String.eqb_spec (lower (hd "" parts)) "update") as [Ha|_].
  { destruct (Nat.ltb_spec (length parts) 3); [apply tr_none|].
    unfold do_update.
    destruct (tasks_db s !! nth 1 parts "") as [task|] eqn:Ht; [|apply tr_none].
    case_bool_decide; [|apply tr_none].
    now apply tr_update. }
  destruct (String.eqb_spec (lower (hd "" parts)) "delete") as [Ha|_];
    [|apply tr_none].
  destruct (Nat.ltb_spec (length parts) 2); [apply tr_none|].
  unfold do_delete.
  destruct (tasks_db s !! nth 1 parts "") as [task|] eqn:Ht; [|apply tr_none].
  now apply (tr_delete _ _ _ _ task).
Qed.

Lemma handle_transition (e : env) (user_id form_text : string) (s : state) :
  transition e user_id (parts_of form_text) s
             (fst (handle_slack_command e user_id form_text s)).
Proof.
  destruct (decide (strip form_text = "")) as [H|H].
  - rewrite handle_help by exact H. apply tr_none.
  - rewrite handle_route by exact H. apply route_transition.
Qed.

End DispatcherFacts.

Section CommandFacts.
Import Text.

Lemma handle_two (e : env) (user_id w1 w2 : string) (s : state) :
  is_word w1 = true -> is_word w2 = true ->
  handle_slack_command e user_id (w1 +:+ " " +:+ w2) s
  = route e user_id [w1; w2] s.
Proof.
  intros H1 H2. rewrite handle_route.
  - now rewrite parts_of_two.
  - rewrite strip_words by assumption.
    apply nonempty_true, nonempty_app_r, nonempty_app_r, is_word_nonempty, H2.
Qed.

Lemma handle_three (e : env) (user_id w1 w2 w3 : string) (s : state) :
  is_word w1 = true -> is_word w2 = true -> is_word w3 = true ->
  handle_slack_command e user_id (w1 +:+ " " +:+ w2 +:+ " " +:+ w3) s
  = route e user_id [w1; w2; w3] s.
Proof.
  intros H1 H2 H3. rewrite handle_route.
  - now rewrite parts_of_three.
  - replace (w1 +:+ " " +:+ w2 +:+ " " +:+ w3)
      with (w1 +:+ (" " +:+ w2 +:+ " ") +:+ w3)
      by (now rewrite <- !app_assoc).
    rewrite strip_words by assumption.
    apply nonempty_true, nonempty_app_r, nonempty_app_r, is_word_nonempty, H3.
Qed.

Lemma valid_status_cases (st : string) :
  st ∈ valid_statuses -> st = "pending" \/ st = "in_progress" \/ st = "completed".
Proof.
  unfold valid_statuses. intros H.
  repeat (apply elem_of_cons in H as [H|H]; [auto|]).
  now apply elem_of_nil in H.
Qed.

Lemma valid_status_word (st : string) :
  st ∈ valid_statuses -> is_word st = true /\ lower st = st.
Proof.
  intros H. apply valid_status_cases in H as [-> | [-> | ->]]; split; reflexivity.
Qed.

End CommandFacts.

(** ** C7: errors leave the state alone *)

(** C7.  Error atomicity: a command answered with a usage error (a
    required argument is missing), a not-found error (the task id is not a
    key of the store), a status validation error or an unknown-action
    error leaves the task store and the user index exactly as they were,
    and the answer is private; so an update with a status outside
    pending, in_progress, completed leaves the prior status of the task
    unchanged. *)
Theorem error_atomicity (e : env) (user_id form_text : string) (s : state) :
  error_case s form_text ->
  fst (handle_slack_command e user_id form_text s) = s
  /\ response_type (snd (handle_slack_command e user_id form_text s))
     = "ephemeral".
Proof.
  intros H.
  destruct (decide (Text.strip form_text = "")) as [He|He].
  { now rewrite handle_help. }
  rewrite handle_route by exact He. unfold route. cbv zeta.
  destruct H as [Ha Hl|Ha Hl|Ha Hl Hn|Ha Hl Hn|Ha Hl Hv|_ Ha];
    unfold action_of in Ha; set (parts := parts_of form_text) in *.
  - apply Nat.ltb_lt in Hl.
    repeat (apply elem_of_cons in Ha as [Ha|Ha];
            [rewrite Ha; simpl; rewrite Hl; now split|]).
    now apply elem_of_nil in Ha.
  - apply Nat.ltb_lt in Hl. rewrite Ha. simpl. rewrite Hl. now split.
  - apply Nat.ltb_ge in Hl.
    repeat (apply elem_of_cons in Ha as [Ha|Ha];
            [rewrite Ha; simpl; rewrite Hl; unfold do_delete; rewrite Hn;
             now split|]).
    now apply elem_of_nil in Ha.
  - apply Nat.ltb_ge in Hl. rewrite Ha. simpl. rewrite Hl.
    unfold do_update. rewrite Hn. now split.
  - apply Nat.ltb_ge in Hl. rewrite Ha. simpl. rewrite Hl.
    unfold do_update.
    destruct (tasks_db s !! nth 1 parts ""); [|now split].
    case_bool_decide; [contradiction|now split].
  - assert (Hne : forall a, a ∈ ["create"; "list"; "show"; "update"; "delete"] ->
                            String.eqb (Text.lower (hd "" parts)) a = false).
    { intros a Hin. apply String.eqb_neq. intros Heq.
      rewrite Heq in Ha. contradiction. }
    rewrite !Hne by (repeat constructor). now split.
Qed.

Lemma error_atomicity_witness :
  fst (handle_slack_command env_a bob "update 3f2a9c1e done" state_a) = state_a
  /\ response_type
       (snd (handle_slack_command env_a bob "update 3f2a9c1e done" state_a))
     = "ephemeral".
Proof.
  apply (error_atomicity env_a bob "update 3f2a9c1e done" state_a).
  apply validation_error.
  - reflexivity.
  - vm_compute. lia.
  - change (Text.lower (nth 2 (parts_of "update 3f2a9c1e done") "")) with "done".
    intros H. unfold valid_statuses in H.
    repeat (apply elem_of_cons in H as [H|H]; [discriminate H|]).
    now apply elem_of_nil in H.
Defined.

(** ** C2: the dispatcher does not look at who owns a task *)

(** C2.  No ownership check: whoever the caller is (in particular a user
    other than the one who created the task and has it in their index),
    [show t], [update t st] with a valid status and [delete t] on a task
    [t] of the store succeed: the answers and the resulting store are a
    function of the stored task alone, and the caller's id is only used
    to pick the index entry that delete edits. *)
Theorem no_ownership_check (e : env) (caller t : string) (task : Task.t)
    (s : state) :
  tasks_db s !! t = Some task ->
  is_word t = true ->
  handle_slack_command e caller ("show " +:+ t) s
  = (s, ephemeral (format_task_response task))
  /\ (forall st, st ∈ valid_statuses ->
        handle_slack_command e caller ("update " +:+ t +:+ " " +:+ st) s
        = (State (<[t := Task.with_status st task]> (tasks_db s)) (user_tasks s),
           in_channel (status_messages st +:+ nl
                       +:+ format_task_response (Task.with_status st task))))
  /\ handle_slack_command e caller ("delete " +:+ t) s
     = (State (delete t (tasks_db s)) (unindex caller t (user_tasks s)),
        ephemeral ("🗑️ Task '" +:+ Task.title task +:+ "' has been deleted.")).
Proof.
  intros Ht Hw. repeat split.
  - change ("show " +:+ t) with ("show" +:+ " " +:+ t).
    rewrite handle_two by (reflexivity || exact Hw).
    unfold route. simpl. now rewrite Ht.
  - intros st Hst. destruct (valid_status_word st Hst) as [Hws Hl].
    change ("update " +:+ t +:+ " " +:+ st)
      with ("update" +:+ " " +:+ t +:+ " " +:+ st).
    rewrite handle_three by (reflexivity || assumption).
    unfold route. simpl. rewrite Hl. unfold do_update. rewrite Ht.
    now rewrite bool_decide_eq_true_2.
  - change ("delete " +:+ t) with ("delete" +:+ " " +:+ t).
    rewrite handle_two by (reflexivity || exact Hw).
    unfold route. simpl. unfold do_delete. now rewrite Ht.
Qed.

Lemma no_ownership_check_witness :
  handle_slack_command env_a bob "show 3f2a9c1e" state_a
  = (state_a, ephemeral (format_task_response task_a))
  /\ (forall st, st ∈ valid_statuses ->
        handle_slack_command env_a bob ("update 3f2a9c1e" +:+ " " +:+ st) state_a
        = (State (<["3f2a9c1e" := Task.with_status st task_a]> (tasks_db state_a))
                 (user_tasks state_a),
           in_channel (status_messages st +:+ nl
                       +:+ format_task_response (Task.with_status st task_a))))
  /\ handle_slack_command env_a bob "delete 3f2a9c1e" state_a
     = (State (delete "3f2a9c1e" (tasks_db state_a))
              (unindex bob "3f2a9c1e" (user_tasks state_a)),
        ephemeral ("🗑️ Task '" +:+ Task.title task_a +:+ "' has been deleted.")).
Proof.
  apply (no_ownership_check env_a bob "3f2a9c1e" task_a state_a).
  - vm_compute. reflexivity.
  - reflexivity.
Defined.

(** ** Creation *)

Section CreateFacts.
Import Text.

Lemma create_task_db (e : env) (user_id : string) (d : TaskData.t) (s : state) :
  tasks_db (fst (create_task e user_id d s))
  = <[generate_task_id e := new_task e d]> (tasks_db s).
Proof. reflexivity. Qed.

Lemma create_task_index (e : env) (user_id : string) (d : TaskData.t) (s : state) :
  user_tasks (fst (create_task e user_id d s))
  = <[user_id := (default [] (user_tasks s !! user_id) ++ [generate_task_id e])%list]>
      (user_tasks s).
Proof.
  unfold create_task. simpl. apply map_eq. intros v.
  destruct (user_tasks s !! user_id) as [ids|] eqn:Hu; simpl.
  - destruct (decide (user_id = v)) as [<-|Hne].
    + now rewrite lookup_alter_eq, lookup_insert_eq, Hu.
    + now rewrite lookup_alter_ne, lookup_insert_ne.
  - destruct (decide (user_id = v)) as [<-|Hne].
    + now rewrite lookup_alter_eq, !lookup_insert_eq.
    + now rewrite lookup_alter_ne, !lookup_insert_ne.
Qed.

Lemma route_create (e : env) (user_id : string) (parts : list string) (s : state) :
  lower (hd "" parts) = "create" ->
  2 <= length parts ->
  route e user_id parts s
  = (fst (create_task e user_id (parse_natural_language e (join " " (tl parts))) s),
     in_channel (format_task_response
                   (new_task e (parse_natural_language e (join " " (tl parts)))))).
Proof.
  intros Ha Hl. unfold route. cbv zeta. rewrite Ha. simpl.
  apply Nat.ltb_ge in Hl. now rewrite Hl.
Qed.

Lemma route_show (e : env) (user_id t : string) (s : state) :
  route e user_id ["show"; t] s
  = match tasks_db s !! t with
    | None => (s, not_found t)
    | Some task => (s, ephemeral (format_task_response task))
    end.
Proof. reflexivity. Qed.

Lemma parts_nonempty_strip (form_text : string) :
  1 <= length (parts_of form_text) -> strip form_text <> "".
Proof.
  intros Hl He. rewrite parts_of_empty in Hl by exact He. simpl in Hl. lia.
Qed.

End CreateFacts.

(** ** C9: create, then show *)

Section ViewFacts.

(** The text of the detail view, field by field. *)
Lemma format_task_response_text (task : Task.t) :
  format_task_response task
  = "✅ **Task Created:** " +:+ Task.title task +:+ nl
    +:+ "📝 **ID:** " +:+ Task.id task +:+ nl
    +:+ match Task.description task with
        | Some d =>
            if Text.nonempty d then "📋 **Description:** " +:+ d +:+ nl else ""
        | None => ""
        end
    +:+ match Task.deadline task with
        | Some d => "⏰ **Deadline:** " +:+ Datetime.strftime_ymd_hm d +:+ nl
        | None => ""
        end
    +:+ "📊 **Status:** "
    +:+ Text.title (Text.replace "_" " " (Task.status task)) +:+ nl
    +:+ "🕐 **Created:** " +:+ Datetime.strftime_ymd_hm (Task.created_at task).
Proof.
  unfold format_task_response. cbv zeta.
  destruct (Task.description task) as [d|]; [destruct (Text.nonempty d)|];
    destruct (Task.deadline task) as [dl|];
    rewrite <- ?app_assoc; reflexivity.
Qed.

End ViewFacts.

(** C9.  Round trip: for every valid create command, the task stored
    under the returned id carries exactly the title, description and
    deadline that the extractor produced from the joined arguments, and a
    show of that id issued right after (by anyone) leaves the state as it
    is and answers with the detail view of that task: the extractor's
    title on the first line, the id on the second, the extractor's
    description on a line of its own when it is present and not empty,
    the extractor's deadline printed to the minute on a line of its own
    when it is present, then the status and the creation time. *)
Theorem create_show_round_trip (e e' : env) (user_id user_id' form_text : string)
    (s : state) :
  action_of form_text = "create" ->
  2 <= length (parts_of form_text) ->
  is_word (generate_task_id e) = true ->
  let extracted :=
    parse_natural_language e (Text.join " " (tl (parts_of form_text))) in
  let s1 := fst (handle_slack_command e user_id form_text s) in
  let view :=
    "✅ **Task Created:** " +:+ TaskData.title extracted +:+ nl
    +:+ "📝 **ID:** " +:+ generate_task_id e +:+ nl
    +:+ match TaskData.description extracted with
        | Some d =>
            if Text.nonempty d then "📋 **Description:** " +:+ d +:+ nl else ""
        | None => ""
        end
    +:+ match TaskData.deadline extracted with
        | Some d => "⏰ **Deadline:** " +:+ Datetime.strftime_ymd_hm d +:+ nl
        | None => ""
        end
    +:+ "📊 **Status:** Pending" +:+ nl
    +:+ "🕐 **Created:** " +:+ Datetime.strftime_ymd_hm (now_create e) in
  exists task,
    tasks_db s1 !! generate_task_id e = Some task
    /\ snd (handle_slack_command e user_id form_text s)
       = in_channel (format_task_response task)
    /\ Task.id task = generate_task_id e
    /\ Task.title task = TaskData.title extracted
    /\ Task.description task = TaskData.description extracted
    /\ Task.deadline task = TaskData.deadline extracted
    /\ handle_slack_command e' user_id' ("show " +:+ generate_task_id e) s1
       = (s1, ephemeral (format_task_response task))
    /\ format_task_response task = view
    /\ handle_slack_command e' user_id' ("show " +:+ generate_task_id e) s1
       = (s1, ephemeral view).
Proof.
  intros Ha Hl Hw extracted s1 view.
  assert (Hs : Text.strip form_text <> "")
    by (apply parts_nonempty_strip; lia).
  assert (Hview : format_task_response (new_task e extracted) = view).
  { rewrite format_task_response_text. reflexivity. }
  assert (Hshow : handle_slack_command e' user_id' ("show " +:+ generate_task_id e) s1
                  = (s1, ephemeral (format_task_response (new_task e extracted)))).
  { subst s1. rewrite (handle_route e user_id form_text s Hs).
    rewrite route_create by assumption. cbn [fst]. fold extracted.
    change ("show " +:+ generate_task_id e)
      with ("show" +:+ " " +:+ generate_task_id e).
    rewrite handle_two by (reflexivity || exact Hw).
    rewrite route_show, create_task_db, lookup_insert_eq. reflexivity. }
  exists (new_task e extracted).
  split.
  { subst s1. rewrite handle_route by exact Hs.
    rewrite route_create by assumption. cbn [fst]. fold extracted.
    rewrite create_task_db. apply lookup_insert_eq. }
  split.
  { rewrite handle_route by exact Hs. now rewrite route_create by assumption. }
  repeat (split; [reflexivity|]).
  split; [exact Hshow|]. split; [exact Hview|]. now rewrite <- Hview.
Qed.

Lemma create_show_round_trip_witness :
  exists task,
    tasks_db state_a !! "3f2a9c1e" = Some task
    /\ snd (handle_slack_command env_a alice
              "create Review proposal by tomorrow" empty_state)
       = in_channel (format_task_response task)
    /\ Task.id task = "3f2a9c1e"
    /\ Task.title task = "Review proposal"
    /\ Task.description task = None
    /\ Task.deadline task = Some (Datetime.mk 739001 12 0 0 0)
    /\ handle_slack_command env_b bob "show 3f2a9c1e" state_a
       = (state_a, ephemeral (format_task_response task))
    /\ format_task_response task
       = "✅ **Task Created:** Review proposal" +:+ nl
         +:+ "📝 **ID:** 3f2a9c1e" +:+ nl
         +:+ "⏰ **Deadline:** 2024-04-25 12:00" +:+ nl
         +:+ "📊 **Status:** Pending" +:+ nl
         +:+ "🕐 **Created:** 2024-04-24 12:00"
    /\ handle_slack_command env_b bob "show 3f2a9c1e" state_a
       = (state_a,
          ephemeral ("✅ **Task Created:** Review proposal" +:+ nl
                     +:+ "📝 **ID:** 3f2a9c1e" +:+ nl
                     +:+ "⏰ **Deadline:** 2024-04-25 12:00" +:+ nl
                     +:+ "📊 **Status:** Pending" +:+ nl
                     +:+ "🕐 **Created:** 2024-04-24 12:00")).
Proof.
  apply (create_show_round_trip env_a env_b alice bob
           "create Review proposal by tomorrow" empty_state).
  - reflexivity.
  - vm_compute. lia.
  - reflexivity.
Defined.

(** ** C8: created_at and the other fields of a stored task *)

(** C8, as the code has it.  A create whose drawn id is already a key of
    the store (the collision of C3: two UUIDs with the same first eight
    characters) replaces the record stored under that id: the task under
    id 3f2a9c1e, created by Alice with its created_at, title and
    deadline, has another created_at, another title and another deadline
    after Bob's create, although no update was issued. *)
Theorem created_at_replaced_by_collision :
  uuid4 env_c <> uuid4 env_a
  /\ generate_task_id env_c = generate_task_id env_a
  /\ tasks_db state_a !! "3f2a9c1e" = Some task_a
  /\ tasks_db state_a_c !! "3f2a9c1e" = Some task_c
  /\ Task.created_at task_a = later
  /\ Task.created_at task_c = next_day
  /\ Task.created_at task_c <> Task.created_at task_a
  /\ Task.title task_c <> Task.title task_a
  /\ Task.deadline task_c <> Task.deadline task_a.
Proof.
  split; [discriminate|]. split; [reflexivity|].
  split; [vm_compute; reflexivity|]. split; [vm_compute; reflexivity|].
  repeat split; discriminate.
Qed.

(** ** C1: the index and the store *)

Section IntegrityFacts.

Lemma integrity_spec (s : state) :
  integrity s <->
  forall v ids t, user_tasks s !! v = Some ids -> t ∈ ids ->
                  is_Some (tasks_db s !! t).
Proof.
  unfold integrity. rewrite map_Forall_lookup. split.
  - intros H v ids t Hv Ht. specialize (H v ids Hv).
    rewrite Forall_forall in H. now apply H.
  - intros H v ids Hv. apply Forall_forall. intros t Ht. now apply (H v ids).
Qed.

Lemma list_remove_subset (t x : string) (ids : list string) :
  x ∈ list_remove t ids -> x ∈ ids.
Proof.
  induction ids as [|y ids IH]; simpl; [auto|].
  destruct (String.eqb_spec y t) as [->|Hne]; intros H.
  - now apply list_elem_of_further.
  - apply elem_of_cons in H as [->|H]; [apply list_elem_of_here|].
    apply list_elem_of_further. auto.
Qed.

Lemma list_remove_absent (t : string) (ids : list string) :
  t ∉ ids -> list_remove t ids = ids.
Proof.
  induction ids as [|y ids IH]; simpl; [reflexivity|]. intros H.
  apply not_elem_of_cons in H as [Hne Hin].
  destruct (String.eqb_spec y t) as [->|_]; [contradiction|].
  now rewrite IH.
Qed.

Lemma unindex_other (user_id t v : string) (ut : gmap string (list string)) :
  v <> user_id -> unindex user_id t ut !! v = ut !! v.
Proof.
  intros Hne. unfold unindex. destruct (ut !! user_id); [|reflexivity].
  case_bool_decide; [|reflexivity]. now rewrite lookup_insert_ne.
Qed.

Lemma unindex_caller (user_id t : string) (ut : gmap string (list string)) :
  unindex user_id t ut !! user_id = list_remove t <$> ut !! user_id.
Proof.
  unfold unindex. destruct (ut !! user_id) as [ids|] eqn:Hu; simpl.
  - case_bool_decide as Hin.
    + now rewrite lookup_insert_eq.
    + now rewrite Hu, list_remove_absent.
  - now rewrite Hu.
Qed.

Lemma transition_integrity (e : env) (user_id : string) (parts : list string)
    (s s' : state) :
  transition e user_id parts s s' ->
  integrity s ->
  (Text.lower (hd "" parts) = "delete" -> sole_reference user_id (nth 1 parts "") s) ->
  integrity s'.
Proof.
  intros Htr Hs Hsole. rewrite integrity_spec in Hs.
  destruct Htr as [|Ha Hl|task st Ha Hl Ht Hst Hv|task Ha Hl Ht];
    apply integrity_spec.
  - exact Hs.
  - intros v ids t. rewrite create_task_index, create_task_db.
    rewrite lookup_insert_is_Some.
    destruct (decide (generate_task_id e = t)) as [|Hne]; [auto|]. right.
    split; [exact Hne|].
    destruct (decide (user_id = v)) as [<-|Hv'].
    + rewrite lookup_insert_eq in H. injection H as <-.
      apply elem_of_app in H0 as [Hin|Hin].
      * destruct (user_tasks s !! user_id) as [old|] eqn:Hu; simpl in Hin.
        -- now apply (Hs user_id old).
        -- now apply elem_of_nil in Hin.
      * apply list_elem_of_singleton in Hin. congruence.
    + rewrite lookup_insert_ne in H by exact Hv'. now apply (Hs v ids).
  - cbn [tasks_db user_tasks]. intros v ids t Hv' Hin.
    rewrite lookup_insert_is_Some.
    destruct (decide (nth 1 parts "" = t)); [auto|]. right.
    split; [assumption|]. now apply (Hs v ids).
  - cbn [tasks_db user_tasks]. intros v ids' t Hv' Hin.
    specialize (Hsole Ha).
    assert (Hold : exists ids, user_tasks s !! v = Some ids
                               /\ t ∈ ids /\ nth 1 parts "" <> t).
    { destruct (decide (v = user_id)) as [->|Hne].
      - rewrite unindex_caller in Hv'.
        destruct (user_tasks s !! user_id) as [ids|] eqn:Hu; [|discriminate].
        injection Hv' as <-. exists ids. split; [reflexivity|].
        split; [now apply list_remove_subset in Hin|].
        specialize (Hsole user_id ids Hu).
        rewrite decide_True in Hsole by reflexivity. congruence.
      - rewrite unindex_other in Hv' by exact Hne.
        exists ids'. split; [exact Hv'|]. split; [exact Hin|].
        specialize (Hsole v ids' Hv').
        rewrite decide_False in Hsole by exact Hne. congruence. }
    destruct Hold as (ids & Hids & Hin' & Hne).
    rewrite lookup_delete_ne by exact Hne. now apply (Hs v ids).
Qed.

Lemma state_a_eq :
  state_a = State {["3f2a9c1e" := task_a]} {[alice := ["3f2a9c1e"]]}.
Proof. vm_compute. reflexivity. Qed.

Lemma state_a_integrity : integrity state_a.
Proof.
  rewrite state_a_eq. apply integrity_spec. cbn [tasks_db user_tasks].
  intros v ids t Hv Ht. apply lookup_singleton_Some in Hv as [_ <-].
  apply list_elem_of_singleton in Ht as ->.
  now rewrite lookup_singleton_eq.
Qed.

End IntegrityFacts.

(** C1, as it fails.  Alice creates a task and Bob deletes it: before the
    deletion every indexed id is a key of the store, after it Alice's
    index still lists the id, which the store no longer has. *)
Lemma integrity_broken_by_foreign_delete :
  integrity state_a
  /\ tasks_db state_a !! "3f2a9c1e" = Some task_a
  /\ user_tasks state_ab !! alice = Some ["3f2a9c1e"]
  /\ tasks_db state_ab !! "3f2a9c1e" = None
  /\ ~ integrity state_ab.
Proof.
  assert (Hi : user_tasks state_ab !! alice = Some ["3f2a9c1e"])
    by (vm_compute; reflexivity).
  assert (Hd : tasks_db state_ab !! "3f2a9c1e" = None)
    by (vm_compute; reflexivity).
  split; [apply state_a_integrity|].
  split; [now rewrite state_a_eq; cbn [tasks_db]; rewrite lookup_singleton_eq|].
  split; [exact Hi|]. split; [exact Hd|].
  intros H. rewrite integrity_spec in H.
  specialize (H alice ["3f2a9c1e"] "3f2a9c1e" Hi (list_elem_of_here _ _)).
  rewrite Hd in H. now destruct H.
Qed.

(** C1, as it holds.  Every command other than a delete keeps the index
    within the store, and so does a delete whose id is listed for no
    other user and at most once for the caller; a delete of an existing
    task takes it out of the store, takes the first occurrence of its id
    out of the caller's index entry and leaves the entries of all other
    users as they are. *)
Theorem integrity_preserved (e : env) (user_id form_text : string) (s : state) :
  let s' := fst (handle_slack_command e user_id form_text s) in
  (integrity s ->
   (action_of form_text = "delete" ->
    sole_reference user_id (nth 1 (parts_of form_text) "") s) ->
   integrity s')
  /\ (action_of form_text = "delete" ->
      2 <= length (parts_of form_text) ->
      is_Some (tasks_db s !! nth 1 (parts_of form_text) "") ->
      tasks_db s' = delete (nth 1 (parts_of form_text) "") (tasks_db s)
      /\ user_tasks s' !! user_id
         = list_remove (nth 1 (parts_of form_text) "") <$> user_tasks s !! user_id
      /\ forall v, v <> user_id -> user_tasks s' !! v = user_tasks s !! v).
Proof.
  intros s'. split.
  - intros Hs Hsole. apply (transition_integrity e user_id (parts_of form_text) s);
      [apply handle_transition|exact Hs|exact Hsole].
  - intros Ha Hl [task Ht]. subst s'.
    rewrite handle_route by (apply parts_nonempty_strip; lia).
    unfold route. cbv zeta. unfold action_of in Ha. rewrite Ha. simpl.
    apply Nat.ltb_ge in Hl. rewrite Hl. unfold do_delete. rewrite Ht.
    cbn [fst tasks_db user_tasks]. split; [reflexivity|]. split.
    + apply unindex_caller.
    + intros v Hv. now apply unindex_other.
Qed.

Lemma integrity_preserved_witness :
  integrity (fst (handle_slack_command env_a alice "delete 3f2a9c1e" state_a)).
Proof.
  apply (proj1 (integrity_preserved env_a alice "delete 3f2a9c1e" state_a)).
  - apply state_a_integrity.
  - intros _. change (nth 1 (parts_of "delete 3f2a9c1e") "") with "3f2a9c1e".
    rewrite state_a_eq. intros v ids Hv. cbn [user_tasks] in Hv.
    apply lookup_singleton_Some in Hv as [<- <-].
    rewrite decide_True by reflexivity. simpl. apply not_elem_of_nil.
Defined.

(** ** C3: task ids *)

(** Whatever is stored under the generated id, [create_task] puts the new
    task there. *)
Lemma create_task_replaces (e : env) (user_id : string) (d : TaskData.t)
    (s : state) :
  tasks_db (fst (create_task e user_id d s)) !! generate_task_id e
  = Some (new_task e d).
Proof. rewrite create_task_db. apply lookup_insert_eq. Qed.

(** C3, as the code has it.  Two draws of the generator that differ as
    UUIDs but share their first eight characters give one and the same
    task id; the second creation then replaces the task stored by the
    first, the store still holds a single task, and the id is listed
    for both users. *)
Theorem task_id_collision :
  uuid4 env_a <> uuid4 env_b
  /\ generate_task_id env_a = generate_task_id env_b
  /\ tasks_db state_a !! "3f2a9c1e" = Some task_a
  /\ tasks_db state_a_b !! "3f2a9c1e" = Some task_b
  /\ tasks_db state_a_b = {["3f2a9c1e" := task_b]}
  /\ user_tasks state_a_b !! alice = Some ["3f2a9c1e"]
  /\ user_tasks state_a_b !! bob = Some ["3f2a9c1e"].
Proof.
  split; [discriminate|].
  split; [reflexivity|].
  repeat split; vm_compute; reflexivity.
Qed.

(** ** C10: the listing *)

Section ListingFacts.
Import Text.

Lemma list_line_task (db : gmap string Task.t) (task_id : string) :
  list_line db task_id
  = match db !! task_id with
    | Some task => task_line task
    | None => ""
    end.
Proof. reflexivity. Qed.

Lemma fold_list_lines (db : gmap string Task.t) (ids : list string) (h : string) :
  fold_left (fun response task_id => response +:+ list_line db task_id) ids h
  = h +:+ task_lines (live_tasks db ids).
Proof.
  revert h. induction ids as [|t ids IH]; intros h; simpl.
  - now rewrite app_nil_r.
  - rewrite IH, list_line_task. unfold live_tasks. simpl.
    destruct (db !! t) as [task|]; simpl.
    + now rewrite app_assoc.
    + now rewrite app_nil_r.
Qed.

Lemma state_ab_reachable : reachable state_ab.
Proof.
  apply (reachable_step env_a bob "delete 3f2a9c1e" state_a).
  apply (reachable_step env_a alice "create Review proposal by tomorrow" empty_state).
  apply reachable_start.
Qed.

End ListingFacts.

(** C10.  The header of a listing shows the length of the user's index
    entry, its body has one line for each indexed id that is still a key
    of the store, in order; and in a state that the process can reach
    (Alice creates a task, Bob deletes it) the count of Alice's listing
    is larger than its number of task lines. *)
Theorem list_count_exceeds_lines :
  (forall user_id s ids,
     user_tasks s !! user_id = Some ids -> ids <> [] ->
     list_user_tasks user_id s
     = ("📋 **Your Tasks (" +:+ Text.str (length ids) +:+ "):**" +:+ nl +:+ nl)
       +:+ task_lines (live_tasks (tasks_db s) ids) +:+ list_footer)
  /\ exists user_id s ids,
       reachable s
       /\ user_tasks s !! user_id = Some ids
       /\ length (live_tasks (tasks_db s) ids) < length ids.
Proof.
  split.
  - intros user_id s ids Hu Hne. unfold list_user_tasks. rewrite Hu.
    destruct ids as [|t ids]; [contradiction|].
    rewrite fold_list_lines. unfold list_header.
    now rewrite <- !app_assoc.
  - exists alice, state_ab, ["3f2a9c1e"].
    split; [apply state_ab_reachable|].
    split; vm_compute; [reflexivity|lia].
Qed.

Lemma list_count_exceeds_lines_witness :
  list_user_tasks alice state_ab
  = ("📋 **Your Tasks (" +:+ Text.str 1 +:+ "):**" +:+ nl +:+ nl)
    +:+ task_lines [] +:+ list_footer.
Proof.
  apply (proj1 list_count_exceeds_lines alice state_ab ["3f2a9c1e"]).
  - vm_compute. reflexivity.
  - discriminate.
Defined.

(** ** C4: taking the deadline text out *)

Section RemainderFacts.
Import Text Re.

Lemma removed_all_length (f s r : string) :
  removed_all f s r -> String.length r <= String.length s.
Proof.
  induction 1 as [s _|a b r _ _ IH]; [lia|].
  rewrite !length_app. lia.
Qed.

Lemma removed_all_shorter (f s r : string) :
  removed_all f s r -> (exists a b, s = a +:+ f +:+ b) ->
  String.length r + String.length f <= String.length s.
Proof.
  intros H (a0 & b0 & Heq). destruct H as [s Hno|a b r _ Hr].
  - now destruct (Hno a0 b0).
  - apply removed_all_length in Hr. rewrite !length_app. lia.
Qed.

Lemma parse_fields (e : env) (text : string) :
  let found := first_match deadline_patterns text in
  let rem := remainder (default "" found) text in
  TaskData.title (parse_natural_language e text)
  = (let t := fst (title_and_description rem) in
     if nonempty t then t else rem)
  /\ TaskData.description (parse_natural_language e text)
     = snd (title_and_description rem)
  /\ TaskData.deadline (parse_natural_language e text)
     = match found with
       | Some m => resolve_deadline e m
       | None => None
       end.
Proof.
  unfold parse_natural_language. cbv zeta.
  now destruct (title_and_description _).
Qed.

End RemainderFacts.

(** C4, as it fails.  In an input that has the deadline text "today"
    twice, taking out the first occurrence only would leave the second
    one in the remainder; the extractor takes out both, and the title
    has neither. *)
Lemma later_occurrences_removed :
  first_match deadline_patterns text_today_twice = Some "today"
  /\ spec_remainder "today" text_today_twice
     = "Pay rent  and call the bank today"
  /\ remainder "today" text_today_twice = "Pay rent  and call the bank"
  /\ TaskData.title (parse_natural_language env_a text_today_twice)
     = "Pay rent  and call the bank".
Proof. repeat split; vm_compute; reflexivity. Qed.

(** C4, as it holds.  The deadline text is not empty and occurs in the
    input; the remainder used for title and description is the input
    with every occurrence of that text taken out (found from left to
    right, without overlap), then trimmed: at least one occurrence goes,
    and no later one is kept. *)
Theorem deadline_text_removed_everywhere (e : env) (text f : string) :
  first_match deadline_patterns text = Some f ->
  exists rest,
    removed_all f text rest
    /\ (forall r, removed_all f text r -> r = rest)
    /\ String.length rest + String.length f <= String.length text
    /\ remainder f text = Text.strip rest
    /\ TaskData.title (parse_natural_language e text)
       = (let t := fst (title_and_description (Text.strip rest)) in
          if Text.nonempty t then t else Text.strip rest)
    /\ TaskData.description (parse_natural_language e text)
       = snd (title_and_description (Text.strip rest)).
Proof.
  intros Hm. pose proof (deadline_text_nonempty _ _ Hm) as Hf.
  pose proof (replace_removed_all f text Hf) as Hr.
  assert (Hrem : remainder f text = Text.strip (Text.replace f "" text)).
  { unfold remainder. apply nonempty_true in Hf. now rewrite Hf. }
  exists (Text.replace f "" text).
  split; [exact Hr|].
  split; [intros r H; apply (removed_all_functional f text); assumption|].
  split.
  { destruct (first_match_occurs _ _ _ Hm) as (a & b & Heq).
    apply removed_all_shorter; [exact Hr|]. now exists a, b. }
  split; [exact Hrem|].
  destruct (parse_fields e text) as (Ht & Hd & _).
  rewrite Hm in Ht, Hd. simpl default in Ht, Hd. rewrite Hrem in Ht, Hd.
  now split.
Qed.

Lemma deadline_text_removed_everywhere_witness :
  exists rest,
    removed_all "today" text_today_twice rest
    /\ (forall r, removed_all "today" text_today_twice r -> r = rest)
    /\ String.length rest + String.length "today"
       <= String.length text_today_twice
    /\ remainder "today" text_today_twice = Text.strip rest
    /\ TaskData.title (parse_natural_language env_a text_today_twice)
       = (let t := fst (title_and_description (Text.strip rest)) in
          if Text.nonempty t then t else Text.strip rest)
    /\ TaskData.description (parse_natural_language env_a text_today_twice)
       = snd (title_and_description (Text.strip rest)).
Proof.
  apply (deadline_text_removed_everywhere env_a text_today_twice "today").
  vm_compute. reflexivity.
Defined.

(** ** C5: title and description *)

Section LineFacts.
Import Text.

Lemma contains_char_cons (c x : ascii) (s : string) :
  contains (String c "") (String x s) = Ascii.eqb c x || contains (String c "") s.
Proof. simpl. now rewrite andb_true_r. Qed.

Lemma split_nonnil (sep : ascii) (s : string) : split sep s <> [].
Proof.
  destruct s as [|c s]; simpl; [discriminate|].
  destruct (Ascii.eqb c sep); [discriminate|].
  destruct (split sep s); discriminate.
Qed.

(** The first line of a text and the lines after it. *)
Lemma split_first_line (sep : ascii) (first rest : string) :
  contains (String sep "") first = false ->
  split sep (first +:+ String sep "" +:+ rest) = first :: split sep rest.
Proof.
  induction first as [|c first IH]; intros H.
  - simpl. now rewrite Ascii.eqb_refl.
  - rewrite contains_char_cons in H. apply orb_false_elim in H as [Hc Hf].
    simpl. rewrite Ascii.eqb_sym, Hc. cbn [String.append] in IH.
    now rewrite (IH Hf).
Qed.

Lemma join_split (sep : ascii) (s : string) :
  join (String sep "") (split sep s) = s.
Proof.
  induction s as [|c s IH]; [reflexivity|]. simpl.
  destruct (Ascii.eqb_spec c sep) as [->|Hne].
  - pose proof (split_nonnil sep s) as Hn.
    destruct (split sep s) as [|h t]; [contradiction|].
    change (join (String sep "") ("" :: h :: t))
      with (String sep (join (String sep "") (h :: t))).
    now rewrite IH.
  - pose proof (split_nonnil sep s) as Hn.
    destruct (split sep s) as [|h [|h' t]]; [contradiction| |].
    + simpl in *. now rewrite IH.
    + change (join (String sep "") (String c h :: h' :: t))
        with (String c (join (String sep "") (h :: h' :: t))).
      now rewrite IH.
Qed.

Lemma title_and_description_lines (first rest : string) :
  contains nl first = false ->
  title_and_description (first +:+ nl +:+ rest)
  = (strip first, Some (strip rest)).
Proof.
  intros H. unfold title_and_description, nl in *.
  rewrite split_first_line by exact H.
  pose proof (split_nonnil "010" rest) as Hn.
  pose proof (join_split "010" rest) as Hj.
  destruct (split "010" rest) as [|h t] eqn:Hs; [contradiction|].
  cbn [length hd tl]. change (1 <? S (S (length t))) with true.
  cbn [orb]. now rewrite Hj.
Qed.

Lemma split_absent (sep : ascii) (s : string) :
  contains (String sep "") s = false -> split sep s = [s].
Proof.
  induction s as [|c s IH]; [reflexivity|]. intros H.
  rewrite contains_char_cons in H. apply orb_false_elim in H as [Hc Hs].
  simpl. rewrite Ascii.eqb_sym, Hc. now rewrite (IH Hs).
Qed.

Lemma title_and_description_sentences (first rest : string) :
  contains nl (first +:+ "." +:+ rest) = false ->
  contains "." first = false ->
  title_and_description (first +:+ "." +:+ rest)
  = (strip first, Some (strip rest)).
Proof.
  intros Hnl Hdot. unfold title_and_description, nl in *.
  rewrite (split_absent "010") by exact Hnl.
  rewrite (split_first_line "." first rest) by exact Hdot.
  pose proof (split_nonnil "." rest) as Hn.
  pose proof (join_split "." rest) as Hj.
  destruct (split "." rest) as [|h t] eqn:Hs; [contradiction|].
  cbn [length hd tl]. change (1 <? 1) with false.
  change (1 <? S (S (length t))) with true. cbn [orb]. now rewrite Hj.
Qed.

Lemma title_and_description_plain (text : string) :
  contains nl text = false ->
  contains "." text = false ->
  title_and_description text = (strip text, None).
Proof.
  intros Hnl Hdot. unfold title_and_description, nl in *.
  rewrite (split_absent "010") by exact Hnl.
  now rewrite (split_absent ".") by exact Hdot.
Qed.

(** A text in which a character occurs is cut at its first occurrence. *)
Lemma first_cut (c : ascii) (s : string) :
  contains (String c "") s = true ->
  exists first rest,
    s = first +:+ String c "" +:+ rest /\ contains (String c "") first = false.
Proof.
  induction s as [|x s IH]; [discriminate|].
  rewrite contains_char_cons. destruct (Ascii.eqb_spec c x) as [<-|Hne].
  - intros _. now exists "", s.
  - simpl. intros H. destruct (IH H) as (first & rest & -> & Hf).
    exists (String x first), rest. split; [reflexivity|].
    rewrite contains_char_cons, Hf. now apply Ascii.eqb_neq in Hne as ->.
Qed.

End LineFacts.

(** C5, as it fails.  A remainder that begins with a blank line gets the
    whole remainder as title, blank line included, where the first
    non-empty line was promised; and a blank line between the lines of a
    description stays in the description, where the non-empty lines
    joined were promised. *)
Lemma blank_lines_are_kept :
  first_match deadline_patterns text_blank_first = None
  /\ TaskData.title (parse_natural_language env_a text_blank_first)
     = nl +:+ "foo"
  /\ spec_title text_blank_first = "foo"
  /\ first_match deadline_patterns text_blank_inside = None
  /\ TaskData.description (parse_natural_language env_a text_blank_inside)
     = Some ("Book flights" +:+ nl +:+ nl +:+ "and hotel")
  /\ spec_description text_blank_inside
     = Some ("Book flights" +:+ nl +:+ "and hotel").
Proof. repeat split; vm_compute; reflexivity. Qed.

(** C5, as it holds.  A remainder is of one of three shapes.  With a
    line feed, it is cut at its line feeds, empty lines being lines like
    the others: the title is the first line trimmed, blank or not, and
    the description is everything after the first line feed, trimmed.
    Without a line feed but with a period, it is cut at the first period:
    the title is the text before it, the description the text after it,
    both trimmed.  Without either, it is its own title, trimmed, and has
    no description.  In each shape the full remainder is the title
    exactly when the computed title is empty, as it is for a remainder
    that begins with a blank line. *)
Theorem title_and_description_by_lines (e : env) (text : string) :
  let rem := remainder (default "" (first_match deadline_patterns text)) text in
  let extracted := parse_natural_language e text in
  (forall first rest,
     rem = first +:+ nl +:+ rest ->
     Text.contains nl first = false ->
     TaskData.title extracted
     = (if Text.nonempty (Text.strip first) then Text.strip first else rem)
     /\ TaskData.description extracted = Some (Text.strip rest))
  /\ (forall rest, rem = nl +:+ rest -> TaskData.title extracted = rem)
  /\ (Text.contains nl rem = false ->
      forall first rest,
        rem = first +:+ "." +:+ rest ->
        Text.contains "." first = false ->
        TaskData.title extracted
        = (if Text.nonempty (Text.strip first) then Text.strip first else rem)
        /\ TaskData.description extracted = Some (Text.strip rest))
  /\ (Text.contains nl rem = false ->
      Text.contains "." rem = false ->
      TaskData.title extracted
      = (if Text.nonempty (Text.strip rem) then Text.strip rem else rem)
      /\ TaskData.description extracted = None)
  /\ ((exists first rest,
         rem = first +:+ nl +:+ rest /\ Text.contains nl first = false)
      \/ (Text.contains nl rem = false
          /\ exists first rest,
               rem = first +:+ "." +:+ rest /\ Text.contains "." first = false)
      \/ (Text.contains nl rem = false /\ Text.contains "." rem = false)).
Proof.
  intros rem extracted. destruct (parse_fields e text) as (Ht & Hd & _).
  fold rem extracted in Ht, Hd.
  assert (Hlines : forall first rest,
            rem = first +:+ nl +:+ rest ->
            Text.contains nl first = false ->
            TaskData.title extracted
            = (if Text.nonempty (Text.strip first) then Text.strip first else rem)
            /\ TaskData.description extracted = Some (Text.strip rest)).
  { intros first rest Hrem Hfirst. rewrite Ht, Hd, Hrem.
    now rewrite title_and_description_lines. }
  split; [exact Hlines|]. split.
  { intros rest Hrem. now destruct (Hlines "" rest Hrem eq_refl) as [-> _]. }
  split.
  { intros Hnl first rest Hrem Hdot. rewrite Ht, Hd.
    rewrite Hrem in Hnl |- *. now rewrite title_and_description_sentences. }
  split.
  { intros Hnl Hdot. rewrite Ht, Hd. now rewrite title_and_description_plain. }
  destruct (Text.contains nl rem) eqn:Hnl.
  - left. now apply (first_cut "010").
  - right. destruct (Text.contains "." rem) eqn:Hdot.
    + left. split; [reflexivity|]. now apply (first_cut ".").
    + right. now split.
Qed.

Lemma title_and_description_by_lines_witness :
  TaskData.title (parse_natural_language env_a text_blank_inside)
  = (if Text.nonempty (Text.strip "Plan trip") then Text.strip "Plan trip"
     else text_blank_inside)
  /\ TaskData.description (parse_natural_language env_a text_blank_inside)
     = Some (Text.strip ("Book flights" +:+ nl +:+ nl +:+ "and hotel")).
Proof.
  apply (proj1 (title_and_description_by_lines env_a text_blank_inside)
               "Plan trip" ("Book flights" +:+ nl +:+ nl +:+ "and hotel")).
  - vm_compute. reflexivity.
  - reflexivity.
Defined.

(** ** C6: resolving the deadline text *)

Section ResolveFacts.
Import Text.

Lemma plus_days_spec (d : datetime) (n : Z) :
  Datetime.plus_days d n
  = if ((Z.abs n <=? Datetime.MAXDELTA)
        && (0 <? Datetime.ordinal d + n)
        && (Datetime.ordinal d + n <=? Datetime.MAXORDINAL))%Z
    then Some (Datetime.mk (Datetime.ordinal d + n) (Datetime.hour d)
                 (Datetime.minute d) (Datetime.second d)
                 (Datetime.microsecond d))
    else None.
Proof.
  unfold Datetime.plus_days, Datetime.timedelta, Datetime.add.
  destruct (Z.abs n <=? Datetime.MAXDELTA)%Z; reflexivity.
Qed.

Lemma relative_word_false (l : string) :
  relative_word l = false ->
  contains "tomorrow" l = false /\ contains "today" l = false
  /\ contains "next week" l = false /\ contains "next month" l = false.
Proof.
  unfold relative_word. intros H.
  apply orb_false_elim in H as [H H4].
  apply orb_false_elim in H as [H H3].
  apply orb_false_elim in H as [H1 H2]. auto.
Qed.

End ResolveFacts.

(** C6, as it fails.  The deadline text "deadline 5days" has none of the
    four relative words and is not of the form "in N days"; by the rule
    for any other fragment it would go to the date parser, which rejects
    it here, and no deadline would result.  The extractor finds "in" (in
    "deadline") and "day" in it and answers now + 5 days. *)
Lemma loose_in_days_test :
  first_match deadline_patterns text_deadline_5days = Some "deadline 5days"
  /\ relative_word (Text.lower "deadline 5days") = false
  /\ Re.search pattern_in_days "deadline 5days" = None
  /\ parser_parse env_a "deadline 5days" = None
  /\ spec_resolve_deadline env_a "deadline 5days" = None
  /\ TaskData.deadline (parse_natural_language env_a text_deadline_5days)
     = Some (Datetime.mk 739005 12 0 0 0).
Proof. repeat split; vm_compute; reflexivity. Qed.

(** C6, as it holds.  The deadline is settled by the first rule that
    applies to the lowered deadline text: "tomorrow" in it gives now + 1
    day; "today", today at 23:59 (seconds as they are); "next week", now
    + 7 days; "next month", now + 30 days; "in" and "day" both in it
    give now + N days for the first integer N of the text, and no
    deadline when it has no integer; any other text goes to the date
    parser, whose failure gives no deadline.  Adding days keeps the time
    of day and moves the date, and gives no deadline when the result
    leaves the years 1 to 9999. *)
Theorem deadline_resolution (e : env) (text f : string) :
  first_match deadline_patterns text = Some f ->
  let l := Text.lower f in
  let now := now_parse e in
  let d := TaskData.deadline (parse_natural_language e text) in
  (Text.contains "tomorrow" l = true -> d = Datetime.plus_days now 1)
  /\ (Text.contains "tomorrow" l = false -> Text.contains "today" l = true ->
      d = Some (Datetime.mk (Datetime.ordinal now) 23 59
                  (Datetime.second now) (Datetime.microsecond now)))
  /\ (Text.contains "tomorrow" l = false -> Text.contains "today" l = false ->
      Text.contains "next week" l = true -> d = Datetime.plus_days now 7)
  /\ (Text.contains "tomorrow" l = false -> Text.contains "today" l = false ->
      Text.contains "next week" l = false ->
      Text.contains "next month" l = true -> d = Datetime.plus_days now 30)
  /\ (relative_word l = false ->
      Text.contains "in" l = true -> Text.contains "day" l = true ->
      d = match Re.search Re.digits f with
          | Some n => Datetime.plus_days now (Text.int n)
          | None => None
          end)
  /\ (relative_word l = false ->
      Text.contains "in" l && Text.contains "day" l = false ->
      d = parser_parse e f
      /\ (parser_parse e f = None -> d = None))
  /\ (forall n,
        Datetime.plus_days now n
        = if ((Z.abs n <=? Datetime.MAXDELTA)
              && (0 <? Datetime.ordinal now + n)
              && (Datetime.ordinal now + n <=? Datetime.MAXORDINAL))%Z
          then Some (Datetime.mk (Datetime.ordinal now + n) (Datetime.hour now)
                       (Datetime.minute now) (Datetime.second now)
                       (Datetime.microsecond now))
          else None).
Proof.
  intros Hm l now d.
  assert (Hd : d = resolve_deadline e f).
  { subst d. destruct (parse_fields e text) as (_ & _ & H).
    now rewrite H, Hm. }
  rewrite Hd. unfold resolve_deadline. fold l now.
  split; [now intros ->|].
  split; [now intros -> ->|].
  split; [now intros -> -> ->|].
  split; [now intros -> -> -> ->|].
  split.
  { intros Hr. apply relative_word_false in Hr as (-> & -> & -> & ->).
    now intros -> ->. }
  split.
  { intros Hr. apply relative_word_false in Hr as (-> & -> & -> & ->).
    intros ->. split; [reflexivity|]. now intros ->. }
  intros n. apply plus_days_spec.
Qed.

Lemma deadline_resolution_witness :
  TaskData.deadline (parse_natural_language env_a text_in_3_days)
  = match Re.search Re.digits "in 3 days" with
    | Some n => Datetime.plus_days noon (Text.int n)
    | None => None
    end.
Proof.
  pose proof (deadline_resolution env_a text_in_3_days "in 3 days") as H.
  apply H; vm_compute; reflexivity.
Defined.

(** The scenarios of the specification. *)
Example scenario_tomorrow :
  parse_natural_language env_a "Review proposal by tomorrow"
  = TaskData.mk "Review proposal" None (Some (Datetime.mk 739001 12 0 0 0)).
Proof. vm_compute. reflexivity. Qed.

Example scenario_in_3_days :
  parse_natural_language env_a text_in_3_days
  = TaskData.mk "Submit report" None (Some (Datetime.mk 739003 12 0 0 0)).
Proof. vm_compute. reflexivity. Qed.

Example scenario_sentences :
  parse_natural_language env_a "Call client. Discuss contract terms"
  = TaskData.mk "Call client" (Some "Discuss contract terms") None.
Proof. vm_compute. reflexivity. Qed.

Example scenario_out_of_range :
  TaskData.deadline (parse_natural_language env_a "Archive in 99999999 days")
  = None.
Proof. vm_compute. reflexivity. Qed.

(** * Further properties of the code *)

(** ** Blank commands, read-only commands *)

Section BlankFacts.
Import Text.

Lemma lstrip_all_space (s : string) : all_space s = true -> lstrip s = "".
Proof.
  induction s as [|c s IH]; simpl; [reflexivity|]. intros H.
  apply andb_prop in H as [Hc Hs]. rewrite Hc. now apply IH.
Qed.

Lemma strip_all_space (s : string) : all_space s = true -> strip s = "".
Proof. intros H. unfold strip. now rewrite lstrip_all_space. Qed.

Lemma rstrip_empty (s : string) : rstrip s = "" -> all_space s = true.
Proof.
  induction s as [|c s IH]; simpl; [reflexivity|].
  destruct (rstrip s) eqn:Hr; [|discriminate].
  destruct (is_space c); [|discriminate]. intros _. now rewrite IH.
Qed.

Lemma lstrip_space_suffix (s : string) :
  all_space (lstrip s) = true -> all_space s = true.
Proof.
  induction s as [|c s IH]; simpl; [reflexivity|].
  destruct (is_space c) eqn:Hc; [exact IH|].
  simpl. rewrite Hc. discriminate.
Qed.

(** [strip] gives the empty text for the whitespace-only texts and for no
    other. *)
Lemma strip_empty_iff (s : string) : strip s = "" <-> all_space s = true.
Proof.
  split; [|apply strip_all_space].
  intros H. apply lstrip_space_suffix. now apply rstrip_empty.
Qed.

Lemma lstrip_head (s l : string) (d : ascii) :
  lstrip s = String d l -> is_space d = false.
Proof.
  induction s as [|y g IH]; simpl; [discriminate|].
  destruct (is_space y) eqn:Hy; [exact IH|]. now intros [= <- _].
Qed.

Lemma rstrip_head (l r : string) (c d : ascii) :
  rstrip (String d l) = String c r -> c = d.
Proof.
  simpl. destruct (rstrip l); [destruct (is_space d)|]; congruence.
Qed.

(** A text that [strip] does not empty has a first token. *)
Lemma parts_of_strip_nonempty (form_text : string) :
  strip form_text <> "" -> 1 <= length (parts_of form_text).
Proof.
  intros Hs. unfold parts_of, strip in *.
  destruct (lstrip form_text) as [|d l] eqn:Hl; [now destruct Hs|].
  apply lstrip_head in Hl.
  destruct (rstrip (String d l)) as [|c r] eqn:Hr; [now destruct Hs|].
  apply rstrip_head in Hr as ->.
  rewrite split_ws_S. simpl lstrip. rewrite Hl. simpl nonempty. cbv iota.
  destruct (take_word _). simpl. lia.
Qed.

End BlankFacts.

(** X1.  A command text that is empty or made of whitespace only is
    answered with the static help text, privately, and the state is left
    as it is; no other command text takes that first exit. *)
Theorem blank_command_is_help (e : env) (user_id form_text : string) (s : state) :
  (all_space form_text = true ->
   handle_slack_command e user_id form_text s = (s, ephemeral help_text))
  /\ (all_space form_text = false ->
      handle_slack_command e user_id form_text s
      = route e user_id (parts_of form_text) s
      /\ 1 <= length (parts_of form_text)).
Proof.
  split; intros H.
  - apply handle_help. now apply strip_empty_iff.
  - assert (Hs : Text.strip form_text <> "").
    { intros He. apply strip_empty_iff in He. congruence. }
    split; [now apply handle_route|]. now apply parts_of_strip_nonempty.
Qed.

Lemma blank_command_is_help_witness :
  handle_slack_command env_a alice "   " state_a = (state_a, ephemeral help_text).
Proof.
  apply (proj1 (blank_command_is_help env_a alice "   " state_a)).
  reflexivity.
Defined.

(** X2.  [list] and [show] only read: whatever their arguments and
    whoever calls, the state after them is the state before, so a
    repeated [list] or [show] gives the same answer again; and [list]
    ignores everything that follows the verb. *)
Theorem list_and_show_read_only (e : env) (user_id form_text : string) (s : state) :
  action_of form_text ∈ ["list"; "show"] ->
  fst (handle_slack_command e user_id form_text s) = s
  /\ handle_slack_command e user_id form_text
       (fst (handle_slack_command e user_id form_text s))
     = handle_slack_command e user_id form_text s
  /\ (action_of form_text = "list" ->
      handle_slack_command e user_id form_text s
      = (s, ephemeral (list_user_tasks user_id s))).
Proof.
  intros Ha.
  assert (Hs : Text.strip form_text <> "").
  { intros He. unfold action_of in Ha. rewrite parts_of_empty in Ha by exact He.
    simpl in Ha. repeat (apply elem_of_cons in Ha as [Ha|Ha]; [discriminate|]).
    now apply elem_of_nil in Ha. }
  assert (H1 : fst (handle_slack_command e user_id form_text s) = s).
  { rewrite handle_route by exact Hs. unfold route. cbv zeta.
    unfold action_of in Ha.
    apply elem_of_cons in Ha as [Ha|Ha]; [now rewrite Ha|].
    apply list_elem_of_singleton in Ha. rewrite Ha. simpl.
    destruct (length _ <? 2); [reflexivity|].
    now destruct (tasks_db s !! _). }
  split; [exact H1|]. split; [now rewrite H1|].
  intros Hl. rewrite handle_route by exact Hs. unfold route. cbv zeta.
  unfold action_of in Hl. now rewrite Hl.
Qed.

Lemma list_and_show_read_only_witness :
  fst (handle_slack_command env_a bob "list everything please" state_a) = state_a
  /\ handle_slack_command env_a bob "list everything please"
       (fst (handle_slack_command env_a bob "list everything please" state_a))
     = handle_slack_command env_a bob "list everything please" state_a
  /\ (action_of "list everything please" = "list" ->
      handle_slack_command env_a bob "list everything please" state_a
      = (state_a, ephemeral (list_user_tasks bob state_a))).
Proof.
  apply (list_and_show_read_only env_a bob "list everything please" state_a).
  change (action_of "list everything please") with "list".
  apply list_elem_of_here.
Defined.

(** ** Letter case and words *)

Section CaseFacts.
Import Text.

Lemma is_space_to_lower (c : ascii) : is_space (to_lower c) = is_space c.
Proof. destruct c as [[] [] [] [] [] [] [] []]; reflexivity. Qed.

Lemma to_lower_idempotent (c : ascii) : to_lower (to_lower c) = to_lower c.
Proof. destruct c as [[] [] [] [] [] [] [] []]; reflexivity. Qed.

Lemma lower_idempotent (s : string) : lower (lower s) = lower s.
Proof.
  induction s as [|c s IH]; simpl; [reflexivity|].
  now rewrite to_lower_idempotent, IH.
Qed.

Lemma lower_app (a b : string) : lower (a +:+ b) = lower a +:+ lower b.
Proof. induction a as [|c a IH]; simpl; [reflexivity|now rewrite IH]. Qed.

Lemma no_space_lower (s : string) : no_space (lower s) = no_space s.
Proof.
  induction s as [|c s IH]; simpl; [reflexivity|].
  now rewrite is_space_to_lower, IH.
Qed.

Lemma is_word_lower (s : string) : is_word (lower s) = is_word s.
Proof. unfold is_word. rewrite no_space_lower. now destruct s. Qed.

Lemma no_space_app (a b : string) :
  no_space (a +:+ b) = no_space a && no_space b.
Proof.
  induction a as [|c a IH]; simpl; [reflexivity|].
  now rewrite IH, andb_assoc.
Qed.

(** A valid status, in whatever case it is typed, is one word. *)
Lemma valid_status_any_case_word (st : string) :
  lower st ∈ valid_statuses -> is_word st = true.
Proof.
  intros H. rewrite <- is_word_lower. now apply valid_status_word in H as [H _].
Qed.

Lemma parts_of_four (w1 w2 w3 w4 : string) :
  is_word w1 = true -> is_word w2 = true -> is_word w3 = true ->
  is_word w4 = true ->
  parts_of (w1 +:+ " " +:+ w2 +:+ " " +:+ w3 +:+ " " +:+ w4)
  = [w1; w2; w3 +:+ " " +:+ w4].
Proof.
  intros H1 H2 H3 H4. unfold parts_of.
  replace (w1 +:+ " " +:+ w2 +:+ " " +:+ w3 +:+ " " +:+ w4)
    with (w1 +:+ (" " +:+ w2 +:+ " " +:+ w3 +:+ " ") +:+ w4)
    by (now rewrite <- !app_assoc).
  rewrite strip_words by assumption.
  replace (w1 +:+ (" " +:+ w2 +:+ " " +:+ w3 +:+ " ") +:+ w4)
    with (w1 +:+ " " +:+ w2 +:+ " " +:+ w3 +:+ " " +:+ w4)
    by (now rewrite <- !app_assoc).
  rewrite split_ws_word
    by (auto using is_word_nonempty, nonempty_app_r).
  rewrite split_ws_word
    by (auto using is_word_nonempty, nonempty_app_r).
  rewrite split_ws_O, lstrip_word by exact H3.
  now rewrite nonempty_app_r
    by (auto using is_word_nonempty, nonempty_app_r).
Qed.

(** The update of a stored task with a status that is valid once
    lowered. *)
Lemma handle_update_ok (e : env) (user_id t st : string) (task : Task.t)
    (s : state) :
  tasks_db s !! t = Some task ->
  is_word t = true ->
  lower st ∈ valid_statuses ->
  handle_slack_command e user_id ("update " +:+ t +:+ " " +:+ st) s
  = (State (<[t := Task.with_status (lower st) task]> (tasks_db s)) (user_tasks s),
     in_channel (status_messages (lower st) +:+ nl
                 +:+ format_task_response (Task.with_status (lower st) task))).
Proof.
  intros Ht Hw Hst.
  change ("update " +:+ t +:+ " " +:+ st)
    with ("update" +:+ " " +:+ t +:+ " " +:+ st).
  rewrite handle_three
    by (reflexivity || assumption || now apply valid_status_any_case_word).
  unfold route. simpl. unfold do_update. rewrite Ht.
  now rewrite bool_decide_eq_true_2.
Qed.

Lemma handle_missing (e : env) (user_id verb t : string) (s : state) :
  verb ∈ ["show"; "delete"] ->
  tasks_db s !! t = None ->
  is_word t = true ->
  handle_slack_command e user_id (verb +:+ " " +:+ t) s = (s, not_found t).
Proof.
  intros Hv Ht Hw.
  apply elem_of_cons in Hv as [->|Hv];
    [|apply list_elem_of_singleton in Hv as ->];
    rewrite handle_two by (reflexivity || exact Hw);
    unfold route; simpl; [|unfold do_delete]; now rewrite Ht.
Qed.

End CaseFacts.



(** X4.  The status of an update is everything after the task id: a
    status followed by one more word is not a valid status, whatever the
    two words are, and the command is answered with the validation error
    without touching the state. *)
Theorem update_status_is_rest_of_line (e : env) (user_id t st w : string)
    (task : Task.t) (s : state) :
  tasks_db s !! t = Some task ->
  is_word t = true -> is_word st = true -> is_word w = true ->
  handle_slack_command e user_id
    ("update " +:+ t +:+ " " +:+ st +:+ " " +:+ w) s
  = (s, ephemeral "❌ Status must be one of: pending, in_progress, completed").
Proof.
  intros Ht Hwt Hst Hw.
  change ("update " +:+ t +:+ " " +:+ st +:+ " " +:+ w)
    with ("update" +:+ " " +:+ t +:+ " " +:+ st +:+ " " +:+ w).
  rewrite handle_route.
  2:{ replace ("update" +:+ " " +:+ t +:+ " " +:+ st +:+ " " +:+ w)
        with ("update" +:+ (" " +:+ t +:+ " " +:+ st +:+ " ") +:+ w)
        by (now rewrite <- !app_assoc).
      rewrite strip_words by (reflexivity || assumption). discriminate. }
  rewrite parts_of_four by (reflexivity || assumption).
  unfold route. simpl. unfold do_update. rewrite Ht.
  rewrite bool_decide_eq_false_2; [reflexivity|].
  intros Hin. apply valid_status_word in Hin as [Hin _].
  rewrite is_word_lower in Hin. apply is_word_no_space in Hin.
  rewrite !no_space_app in Hin. simpl in Hin.
  now rewrite andb_false_r in Hin.
Qed.

Lemma update_status_is_rest_of_line_witness :
  handle_slack_command env_a bob "update 3f2a9c1e completed today" state_a
  = (state_a, ephemeral "❌ Status must be one of: pending, in_progress, completed").
Proof.
  apply (update_status_is_rest_of_line env_a bob "3f2a9c1e" "completed" "today"
           task_a state_a).
  - vm_compute. reflexivity.
  - reflexivity.
  - reflexivity.
  - reflexivity.
Defined.

(** X5.  Of two updates of the same task the later one decides: the state
    after both is the state after the second alone. *)
Theorem update_last_wins (e e' : env) (user_id user_id' t st1 st2 : string)
    (task : Task.t) (s : state) :
  tasks_db s !! t = Some task ->
  is_word t = true ->
  Text.lower st1 ∈ valid_statuses ->
  Text.lower st2 ∈ valid_statuses ->
  fst (handle_slack_command e' user_id' ("update " +:+ t +:+ " " +:+ st2)
         (fst (handle_slack_command e user_id ("update " +:+ t +:+ " " +:+ st1) s)))
  = fst (handle_slack_command e' user_id' ("update " +:+ t +:+ " " +:+ st2) s).
Proof.
  intros Ht Hw H1 H2.
  rewrite (handle_update_ok e user_id t st1 task s Ht Hw H1). cbn [fst].
  rewrite (handle_update_ok e' user_id' t st2 (Task.with_status (Text.lower st1) task));
    [|apply lookup_insert_eq|exact Hw|exact H2].
  rewrite (handle_update_ok e' user_id' t st2 task s Ht Hw H2).
  cbn [fst tasks_db user_tasks]. now rewrite insert_insert_eq.
Qed.

Lemma update_last_wins_witness :
  fst (handle_slack_command env_b alice "update 3f2a9c1e pending"
         (fst (handle_slack_command env_a bob "update 3f2a9c1e completed" state_a)))
  = fst (handle_slack_command env_b alice "update 3f2a9c1e pending" state_a).
Proof.
  apply (update_last_wins env_a env_b bob alice "3f2a9c1e" "completed" "pending"
           task_a state_a).
  - vm_compute. reflexivity.
  - reflexivity.
  - apply list_elem_of_further, list_elem_of_further, list_elem_of_here.
  - apply list_elem_of_here.
Defined.

(** X6.  After a delete the task is gone for every command and every
    caller: show, delete and update of its id are answered with the
    not-found error and change nothing. *)
Theorem deleted_task_is_gone (e e' : env) (user_id user_id' t : string)
    (task : Task.t) (s : state) :
  tasks_db s !! t = Some task ->
  is_word t = true ->
  let s1 := fst (handle_slack_command e user_id ("delete " +:+ t) s) in
  tasks_db s1 !! t = None
  /\ handle_slack_command e' user_id' ("show " +:+ t) s1 = (s1, not_found t)
  /\ handle_slack_command e' user_id' ("delete " +:+ t) s1 = (s1, not_found t)
  /\ forall st, is_word st = true ->
       handle_slack_command e' user_id' ("update " +:+ t +:+ " " +:+ st) s1
       = (s1, not_found t).
Proof.
  intros Ht Hw s1.
  assert (Hgone : tasks_db s1 !! t = None).
  { subst s1. change ("delete " +:+ t) with ("delete" +:+ " " +:+ t).
    rewrite handle_two by (reflexivity || exact Hw).
    unfold route. simpl. unfold do_delete. rewrite Ht.
    cbn [fst tasks_db]. apply lookup_delete_eq. }
  split; [exact Hgone|].
  split.
  { change ("show " +:+ t) with ("show" +:+ " " +:+ t).
    apply handle_missing; [apply list_elem_of_here|exact Hgone|exact Hw]. }
  split.
  { change ("delete " +:+ t) with ("delete" +:+ " " +:+ t).
    apply handle_missing;
      [apply list_elem_of_further, list_elem_of_here|exact Hgone|exact Hw]. }
  intros st Hst.
  change ("update " +:+ t +:+ " " +:+ st)
    with ("update" +:+ " " +:+ t +:+ " " +:+ st).
  rewrite handle_three by (reflexivity || assumption).
  unfold route. simpl. unfold do_update. now rewrite Hgone.
Qed.

Lemma deleted_task_is_gone_witness :
  tasks_db state_ab !! "3f2a9c1e" = None
  /\ handle_slack_command env_b alice "show 3f2a9c1e" state_ab
     = (state_ab, not_found "3f2a9c1e")
  /\ handle_slack_command env_b alice "delete 3f2a9c1e" state_ab
     = (state_ab, not_found "3f2a9c1e")
  /\ forall st, is_word st = true ->
       handle_slack_command env_b alice ("update 3f2a9c1e" +:+ " " +:+ st) state_ab
       = (state_ab, not_found "3f2a9c1e").
Proof.
  apply (deleted_task_is_gone env_a env_b bob alice "3f2a9c1e" task_a state_a).
  - vm_compute. reflexivity.
  - reflexivity.
Defined.

(** ** What the store looks like in a state the process reaches *)

Section StoreFacts.
Import Text.

Lemma handle_create (e : env) (user_id form_text : string) (s : state) :
  action_of form_text = "create" ->
  2 <= length (parts_of form_text) ->
  handle_slack_command e user_id form_text s
  = (fst (create_task e user_id
            (parse_natural_language e (join " " (tl (parts_of form_text)))) s),
     in_channel (format_task_response
                   (new_task e (parse_natural_language e
                                  (join " " (tl (parts_of form_text))))))).
Proof.
  intros Ha Hl. rewrite handle_route by (apply parts_nonempty_strip; lia).
  now apply route_create.
Qed.

Lemma transition_well_formed (e : env) (user_id : string) (parts : list string)
    (s s' : state) :
  transition e user_id parts s s' -> well_formed s -> well_formed s'.
Proof.
  unfold well_formed.
  intros [|Ha Hl|task st Ha Hl Ht Hst Hv|task Ha Hl Ht] Hs.
  - exact Hs.
  - rewrite create_task_db. apply map_Forall_insert_2; [|exact Hs].
    repeat split. apply list_elem_of_here.
  - cbn [tasks_db]. apply map_Forall_insert_2; [|exact Hs].
    rewrite map_Forall_lookup in Hs. destruct (Hs _ _ Ht) as (Hid & _ & Hsub).
    now repeat split.
  - cbn [tasks_db]. now apply map_Forall_delete.
Qed.

End StoreFacts.

(** X7.  A create puts the new id at the end of the caller's index
    entry, after the ids already listed and in their order (starting the
    entry when the caller has none), leaves the entries of all other
    users as they are, and leaves every task stored under another id as
    it is. *)
Theorem create_appends_to_index (e : env) (user_id form_text : string) (s : state) :
  action_of form_text = "create" ->
  2 <= length (parts_of form_text) ->
  let s' := fst (handle_slack_command e user_id form_text s) in
  user_tasks s' !! user_id
  = Some (default [] (user_tasks s !! user_id) ++ [generate_task_id e])%list
  /\ (forall v, v <> user_id -> user_tasks s' !! v = user_tasks s !! v)
  /\ (forall t, t <> generate_task_id e -> tasks_db s' !! t = tasks_db s !! t).
Proof.
  intros Ha Hl s'. subst s'. rewrite handle_create by assumption. cbn [fst].
  rewrite create_task_index, create_task_db.
  split; [apply lookup_insert_eq|].
  split; [intros v Hv|intros t Ht]; now rewrite lookup_insert_ne.
Qed.

Lemma create_appends_to_index_witness :
  let s' := fst (handle_slack_command env_b alice "create Book flights" state_a) in
  user_tasks s' !! alice
  = Some (default [] (user_tasks state_a !! alice) ++ [generate_task_id env_b])%list
  /\ (forall v, v <> alice -> user_tasks s' !! v = user_tasks state_a !! v)
  /\ (forall t, t <> generate_task_id env_b ->
                tasks_db s' !! t = tasks_db state_a !! t).
Proof.
  apply (create_appends_to_index env_b alice "create Book flights" state_a).
  - reflexivity.
  - vm_compute. lia.
Defined.

(** X8.  In every state the process can reach, each stored task is
    stored under its own id, has one of the statuses pending,
    in_progress, completed, and has no subtasks. *)
Theorem reachable_well_formed (s : state) :
  reachable s ->
  forall t task,
    tasks_db s !! t = Some task ->
    Task.id task = t
    /\ Task.status task ∈ valid_statuses
    /\ Task.subtasks task = [].
Proof.
  intros Hr. apply map_Forall_lookup. change (well_formed s).
  induction Hr as [|e user_id form_text s _ IH].
  - unfold well_formed, empty_state. cbn [tasks_db]. apply map_Forall_empty.
  - apply (transition_well_formed e user_id (parts_of form_text) s);
      [apply handle_transition|exact IH].
Qed.

Lemma reachable_well_formed_witness :
  Task.id task_a = "3f2a9c1e"
  /\ Task.status task_a ∈ valid_statuses
  /\ Task.subtasks task_a = [].
Proof.
  apply (reachable_well_formed state_a).
  - apply (reachable_step env_a alice "create Review proposal by tomorrow"
             empty_state).
    apply reachable_start.
  - vm_compute. reflexivity.
Defined.

(** ** The counts of the health check *)

Section CountFacts.

Lemma unindex_size (user_id t : string) (ut : gmap string (list string)) :
  size (unindex user_id t ut) = size ut.
Proof.
  unfold unindex. destruct (ut !! user_id) as [ids|] eqn:Hu; [|reflexivity].
  case_bool_decide; [|reflexivity].
  apply map_size_insert_Some. now rewrite Hu.
Qed.

Lemma unindex_is_Some (user_id t v : string) (ut : gmap string (list string)) :
  is_Some (ut !! v) -> is_Some (unindex user_id t ut !! v).
Proof.
  intros H. destruct (decide (v = user_id)) as [->|Hne].
  - rewrite unindex_caller. destruct H as [ids ->]. now eexists.
  - now rewrite unindex_other.
Qed.

End CountFacts.

(** X9.  The counts that the health check reports: no command ever takes
    a user out of the index, so the count of users never goes down (a
    user whose last task is deleted is still counted); a delete of a
    stored task lowers the count of tasks by one and leaves the count of
    users; a create raises the count of tasks by one when the drawn id
    is new and leaves it when the id is taken, and raises the count of
    users by one exactly when the caller had no index entry. *)
Theorem health_counts (e : env) (user_id form_text : string) (s : state) :
  let s' := fst (handle_slack_command e user_id form_text s) in
  let parts := parts_of form_text in
  (forall v, is_Some (user_tasks s !! v) -> is_Some (user_tasks s' !! v))
  /\ total_users (root s) <= total_users (root s')
  /\ (action_of form_text = "delete" -> 2 <= length parts ->
      is_Some (tasks_db s !! nth 1 parts "") ->
      S (total_tasks (root s')) = total_tasks (root s)
      /\ total_users (root s') = total_users (root s))
  /\ (action_of form_text = "create" -> 2 <= length parts ->
      total_tasks (root s')
      = match tasks_db s !! generate_task_id e with
        | Some _ => total_tasks (root s)
        | None => S (total_tasks (root s))
        end
      /\ total_users (root s')
         = match user_tasks s !! user_id with
           | Some _ => total_users (root s)
           | None => S (total_users (root s))
           end).
Proof.
  intros s' parts. unfold root, action_of. cbn [total_tasks total_users].
  fold parts.
  assert (Hcreate : Text.lower (hd "" parts) = "create" -> 2 <= length parts ->
            tasks_db s' = <[generate_task_id e :=
                              new_task e (parse_natural_language e
                                            (Text.join " " (tl parts)))]> (tasks_db s)
            /\ user_tasks s'
               = <[user_id := (default [] (user_tasks s !! user_id)
                               ++ [generate_task_id e])%list]> (user_tasks s)).
  { intros Ha Hl. subst s'. rewrite handle_create by assumption. cbn [fst].
    now rewrite create_task_index, create_task_db. }
  assert (Hdelete : Text.lower (hd "" parts) = "delete" -> 2 <= length parts ->
            is_Some (tasks_db s !! nth 1 parts "") ->
            tasks_db s' = delete (nth 1 parts "") (tasks_db s)
            /\ user_tasks s' = unindex user_id (nth 1 parts "") (user_tasks s)).
  { intros Ha Hl [task Ht]. subst s'.
    rewrite handle_route by (apply parts_nonempty_strip; fold parts; lia).
    fold parts. unfold route. cbv zeta. rewrite Ha. simpl.
    apply Nat.ltb_ge in Hl. rewrite Hl. unfold do_delete. now rewrite Ht. }
  pose proof (handle_transition e user_id form_text s) as Htr.
  fold s' parts in Htr. clearbody s'.
  assert (Husers : (forall v, is_Some (user_tasks s !! v) ->
                              is_Some (user_tasks s' !! v))
                   /\ size (user_tasks s) <= size (user_tasks s')).
  { destruct Htr as [|Ha Hl|task st Ha Hl Ht Hst Hv|task Ha Hl Ht].
    - split; [auto|lia].
    - rewrite create_task_index. split.
      + intros v Hv. rewrite lookup_insert_is_Some.
        destruct (decide (user_id = v)); auto.
      + rewrite map_size_insert. destruct (user_tasks s !! user_id); simpl; lia.
    - cbn [user_tasks]. split; [auto|lia].
    - cbn [user_tasks]. split.
      + intros v Hv. now apply unindex_is_Some.
      + rewrite unindex_size. lia. }
  destruct Husers as [Hkeep Hsize].
  split; [exact Hkeep|]. split; [exact Hsize|]. split.
  - intros Ha Hl Hsome. destruct (Hdelete Ha Hl Hsome) as [-> ->].
    rewrite unindex_size. split; [|reflexivity].
    rewrite map_size_delete_Some by exact Hsome.
    destruct Hsome as [task Ht].
    assert (size (tasks_db s) <> 0); [|lia].
    intros Hz. apply map_size_empty_inv in Hz. rewrite Hz in Ht.
    now rewrite lookup_empty in Ht.
  - intros Ha Hl. destruct (Hcreate Ha Hl) as [-> ->].
    rewrite !map_size_insert.
    split.
    + now destruct (tasks_db s !! generate_task_id e).
    + now destruct (user_tasks s !! user_id).
Qed.

Lemma health_counts_witness :
  S (total_tasks (root state_ab)) = total_tasks (root state_a)
  /\ total_users (root state_ab) = total_users (root state_a).
Proof.
  apply (health_counts env_a bob "delete 3f2a9c1e" state_a).
  - reflexivity.
  - vm_compute. lia.
  - change (nth 1 (parts_of "delete 3f2a9c1e") "") with "3f2a9c1e".
    exists task_a. vm_compute. reflexivity.
Defined.

(** ** Ownership when ids do not collide *)

Section OwnershipFacts.

Lemma list_remove_NoDup (t : string) (ids : list string) :
  NoDup ids -> NoDup (list_remove t ids) /\ t ∉ list_remove t ids.
Proof.
  induction ids as [|y ids IH]; simpl; intros Hnd.
  - split; [constructor|apply not_elem_of_nil].
  - apply NoDup_cons in Hnd as [Hy Hnd].
    destruct (String.eqb_spec y t) as [->|Hne]; [now split|].
    destruct (IH Hnd) as [IH1 IH2]. split.
    + apply NoDup_cons. split; [|exact IH1].
      intros Hin. now apply list_remove_subset in Hin.
    + apply not_elem_of_cons. split; [congruence|exact IH2].
Qed.

Lemma transition_owned_once (e : env) (user_id : string) (parts : list string)
    (s s' : state) :
  transition e user_id parts s s' ->
  owned_once s ->
  (Text.lower (hd "" parts) = "create" -> fresh_id e s) ->
  owned_once s'.
Proof.
  intros [|Ha Hl|task st Ha Hl Ht Hst Hv|task Ha Hl Ht] Hs Hfresh.
  - exact Hs.
  - specialize (Hfresh Ha). intros v ids. rewrite create_task_index.
    destruct (decide (user_id = v)) as [<-|Hv].
    + rewrite lookup_insert_eq. intros [= <-]. split.
      * apply NoDup_app. split; [|split].
        -- destruct (user_tasks s !! user_id) as [old|] eqn:Hu; simpl;
             [now apply (Hs user_id old)|constructor].
        -- intros x Hx Hin. apply list_elem_of_singleton in Hin as ->.
           destruct (user_tasks s !! user_id) as [old|] eqn:Hu; simpl in Hx;
             [now apply (Hfresh user_id old)|now apply elem_of_nil in Hx].
        -- apply NoDup_singleton.
      * intros w ids' Hw. rewrite lookup_insert_ne by congruence.
        intros Hids' t Hin. apply elem_of_app in Hin as [Hin|Hin].
        -- destruct (user_tasks s !! user_id) as [old|] eqn:Hu; simpl in Hin;
             [|now apply elem_of_nil in Hin].
           now apply (proj2 (Hs user_id old Hu) w ids').
        -- apply list_elem_of_singleton in Hin as ->. now apply (Hfresh w).
    + rewrite lookup_insert_ne by exact Hv. intros Hids.
      destruct (Hs v ids Hids) as [Hnd Hdisj]. split; [exact Hnd|].
      intros w ids' Hw. destruct (decide (user_id = w)) as [<-|Hw'].
      * rewrite lookup_insert_eq. intros [= <-] t Hin.
        apply not_elem_of_app. split.
        -- destruct (user_tasks s !! user_id) as [old|] eqn:Hu; simpl;
             [now apply (Hdisj user_id old)|apply not_elem_of_nil].
        -- intros Hid. apply list_elem_of_singleton in Hid as ->.
           now apply (Hfresh v ids).
      * rewrite lookup_insert_ne by exact Hw'. now apply Hdisj.
  - exact Hs.
  - cbn [user_tasks].
    assert (Hsub : forall v ids', unindex user_id (nth 1 parts "") (user_tasks s) !! v
                                  = Some ids' ->
              exists ids, user_tasks s !! v = Some ids
                          /\ (NoDup ids -> NoDup ids')
                          /\ forall x, x ∈ ids' -> x ∈ ids).
    { intros v ids'. destruct (decide (v = user_id)) as [->|Hne].
      - rewrite unindex_caller.
        destruct (user_tasks s !! user_id) as [ids|]; [|discriminate].
        intros [= <-]. exists ids. split; [reflexivity|]. split.
        + intros Hnd. now apply list_remove_NoDup.
        + intros x. apply list_remove_subset.
      - rewrite unindex_other by exact Hne. intros H. exists ids'. auto. }
    intros v ids' Hv. destruct (Hsub v ids' Hv) as (ids & Hids & Hnd & Hin).
    destruct (Hs v ids Hids) as [Hnd0 Hdisj]. split; [auto|].
    intros w ids'' Hw Hw' x Hx.
    destruct (Hsub w ids'' Hw') as (idsw & Hidsw & _ & Hinw).
    intros Hc. apply (Hdisj w idsw Hw Hidsw x); auto.
Qed.

Lemma owned_once_sole_reference (user_id t : string) (ids : list string)
    (s : state) :
  owned_once s ->
  user_tasks s !! user_id = Some ids ->
  t ∈ ids ->
  sole_reference user_id t s.
Proof.
  intros Hs Hu Hin v ids' Hv. destruct (decide (v = user_id)) as [->|Hne].
  - apply list_remove_NoDup. now apply (Hs user_id ids').
  - now apply (proj2 (Hs user_id ids Hu) v ids').
Qed.

End OwnershipFacts.

(** X10.  As long as a create never draws an id that some index entry
    already lists, every id is listed at most once and in the entry of
    one user only: every command keeps that, whoever issues it. *)
Theorem owned_once_preserved (e : env) (user_id form_text : string) (s : state) :
  owned_once s ->
  (action_of form_text = "create" -> fresh_id e s) ->
  owned_once (fst (handle_slack_command e user_id form_text s)).
Proof.
  intros Hs Hfresh.
  apply (transition_owned_once e user_id (parts_of form_text) s);
    [apply handle_transition|exact Hs|exact Hfresh].
Qed.

Lemma owned_once_preserved_witness :
  owned_once (fst (handle_slack_command env_d bob "create Book flights" state_a)).
Proof.
  apply (owned_once_preserved env_d bob "create Book flights" state_a).
  - rewrite state_a_eq. intros v ids Hv. cbn [user_tasks] in Hv.
    apply lookup_singleton_Some in Hv as [<- <-]. split.
    + apply NoDup_singleton.
    + intros w ids' Hw Hw'. cbn [user_tasks] in Hw'.
      apply lookup_singleton_Some in Hw' as [Heq _]. congruence.
  - intros _. rewrite state_a_eq. intros v ids Hv. cbn [user_tasks] in Hv.
    apply lookup_singleton_Some in Hv as [_ <-].
    change (generate_task_id env_d) with "9b8c7d6e".
    intros Hin. apply list_elem_of_singleton in Hin. discriminate Hin.
Defined.

(** X11.  When every id is listed once and for one user only, a delete
    issued by the user whose index entry lists the id keeps the index
    within the store: the dangling reference of a delete needs a caller
    other than that user. *)
Theorem owner_delete_keeps_integrity (e : env) (user_id form_text : string)
    (ids : list string) (s : state) :
  integrity s ->
  owned_once s ->
  action_of form_text = "delete" ->
  user_tasks s !! user_id = Some ids ->
  nth 1 (parts_of form_text) "" ∈ ids ->
  integrity (fst (handle_slack_command e user_id form_text s))
  /\ owned_once (fst (handle_slack_command e user_id form_text s)).
Proof.
  intros Hi Ho Ha Hu Hin. split.
  - apply (transition_integrity e user_id (parts_of form_text) s);
      [apply handle_transition|exact Hi|].
    intros _. now apply (owned_once_sole_reference user_id _ ids).
  - apply (transition_owned_once e user_id (parts_of form_text) s);
      [apply handle_transition|exact Ho|].
    unfold action_of in Ha. rewrite Ha. discriminate.
Qed.

Lemma owner_delete_keeps_integrity_witness :
  integrity (fst (handle_slack_command env_a alice "delete 3f2a9c1e" state_a))
  /\ owned_once (fst (handle_slack_command env_a alice "delete 3f2a9c1e" state_a)).
Proof.
  apply (owner_delete_keeps_integrity env_a alice "delete 3f2a9c1e"
           ["3f2a9c1e"] state_a).
  - apply state_a_integrity.
  - rewrite state_a_eq. intros v ids Hv. cbn [user_tasks] in Hv.
    apply lookup_singleton_Some in Hv as [<- <-]. split.
    + apply NoDup_singleton.
    + intros w ids' Hw Hw'. cbn [user_tasks] in Hw'.
      apply lookup_singleton_Some in Hw' as [Heq _]. congruence.
  - reflexivity.
  - vm_compute. reflexivity.
  - change (nth 1 (parts_of "delete 3f2a9c1e") "") with "3f2a9c1e".
    apply list_elem_of_here.
Defined.

(** ** More on titles and descriptions *)

Section SentenceFacts.
Import Text.

Lemma replace_whole (f : string) : f <> "" -> replace f "" f = "".
Proof.
  intros Hf. unfold replace. apply nonempty_true in Hf as Hn. rewrite Hn.
  destruct f as [|c f]; [discriminate|]. cbn [String.length replace_from].
  rewrite partition_eq.
  rewrite <- (app_nil_r (String c f)) at 2. rewrite startswith_app.
  assert (Hd : drop (String.length (String c f)) (String c f) = "").
  { clear. induction (String c f) as [|d g IH]; [reflexivity|exact IH]. }
  rewrite Hd. simpl. now destruct (String.length f).
Qed.

End SentenceFacts.

(** X12.  The title that the extractor returns is empty exactly when the
    deadline-stripped remainder is empty; an input that is nothing but
    its own deadline text therefore gets an empty title (and no
    description). *)
Theorem title_empty_iff_remainder_empty (e : env) (text : string) :
  let rem := remainder (default "" (first_match deadline_patterns text)) text in
  (TaskData.title (parse_natural_language e text) = "" <-> rem = "")
  /\ (first_match deadline_patterns text = Some text ->
      TaskData.title (parse_natural_language e text) = ""
      /\ TaskData.description (parse_natural_language e text) = None).
Proof.
  intros rem. destruct (parse_fields e text) as (Ht & Hd & _).
  fold rem in Ht, Hd.
  assert (Hempty : rem = "" ->
            TaskData.title (parse_natural_language e text) = ""
            /\ TaskData.description (parse_natural_language e text) = None).
  { intros Hr. rewrite Ht, Hd, Hr. now split. }
  split; [split|].
  - rewrite Ht. cbv zeta.
    destruct (fst (title_and_description rem)) as [|c t]; simpl; [auto|discriminate].
  - intros Hr. now apply Hempty.
  - intros Hm. apply Hempty. subst rem. rewrite Hm. simpl default.
    unfold remainder. pose proof (deadline_text_nonempty _ _ Hm) as Hf.
    apply nonempty_true in Hf as Hn. rewrite Hn.
    now rewrite replace_whole.
Qed.

Lemma title_empty_iff_remainder_empty_witness :
  TaskData.title (parse_natural_language env_a "next week") = ""
  /\ TaskData.description (parse_natural_language env_a "next week") = None.
Proof.
  apply (proj2 (title_empty_iff_remainder_empty env_a "next week")).
  vm_compute. reflexivity.
Defined.

(** X13.  A remainder of one line is cut at its first period: the text
    before it, trimmed, is the title (the full remainder when that is
    empty) and the text after it, trimmed, is the description, further
    periods staying in the description; a one-line remainder without a
    period is its own title, trimmed, and has no description. *)
Theorem single_line_remainder (e : env) (text : string) :
  let rem := remainder (default "" (first_match deadline_patterns text)) text in
  let extracted := parse_natural_language e text in
  Text.contains nl rem = false ->
  (forall first rest,
     rem = first +:+ "." +:+ rest ->
     Text.contains "." first = false ->
     TaskData.title extracted
     = (if Text.nonempty (Text.strip first) then Text.strip first else rem)
     /\ TaskData.description extracted = Some (Text.strip rest))
  /\ (Text.contains "." rem = false ->
      TaskData.title extracted
      = (if Text.nonempty (Text.strip rem) then Text.strip rem else rem)
      /\ TaskData.description extracted = None).
Proof.
  intros rem extracted Hnl. destruct (parse_fields e text) as (Ht & Hd & _).
  fold rem extracted in Ht, Hd. split.
  - intros first rest Hrem Hdot. rewrite Ht, Hd.
    rewrite Hrem in Hnl |- *.
    now rewrite title_and_description_sentences.
  - intros Hdot. rewrite Ht, Hd.
    now rewrite title_and_description_plain.
Qed.

Lemma single_line_remainder_witness :
  TaskData.title (parse_natural_language env_a "Call client. Discuss terms. Today")
  = (if Text.nonempty (Text.strip "Call client")
     then Text.strip "Call client" else "Call client. Discuss terms.")
  /\ TaskData.description
       (parse_natural_language env_a "Call client. Discuss terms. Today")
     = Some (Text.strip " Discuss terms.").
Proof.
  apply (proj1 (single_line_remainder env_a "Call client. Discuss terms. Today"
                  ltac:(vm_compute; reflexivity))
               "Call client" " Discuss terms.").
  - vm_compute. reflexivity.
  - reflexivity.
Defined.

(** ** What the deadline patterns match *)

Section PatternFacts.
Import Text Re.

Lemma ci_ends (c : ascii) (s m r : string) :
  In (m, r) (ends (ci c) s) ->
  exists x, m = String x "" /\ to_lower x = to_lower c.
Proof.
  unfold ci. simpl. destruct s as [|x s]; [intros []|].
  destruct (Ascii.eqb_spec (to_lower x) (to_lower c)) as [Hx|_]; [|intros []].
  intros [[= <- <-]|[]]. now exists x.
Qed.

(** A literal matches its own text, up to the case of letters. *)
Lemma lit_ends_lower (w s m r : string) :
  In (m, r) (ends (lit w) s) -> lower m = lower w.
Proof.
  revert s m r. induction w as [|c w IH]; intros s m r.
  - simpl. intros [[= <- <-]|[]]. reflexivity.
  - destruct w as [|d w].
    + intros H. apply ci_ends in H as (x & -> & Hx). simpl. now rewrite Hx.
    + change (lit (String c (String d w)))
        with (Cat (ci c) (lit (String d w))).
      cbn [ends]. intros H. apply in_flat_map in H as [[m1 s1] [H1 H]].
      apply in_map_iff in H as [[m2 s2] [[= <- <-] H2]].
      apply ci_ends in H1 as (x & -> & Hx). apply IH in H2.
      cbn [String.append lower]. now rewrite Hx, H2.
Qed.

Lemma alts_ends (rs : list regex) (s m r : string) :
  In (m, r) (ends (alts rs) s) -> exists r0, In r0 rs /\ In (m, r) (ends r0 s).
Proof.
  induction rs as [|r1 rs IH].
  - simpl. destruct s; [intros []|intros []].
  - destruct rs as [|r2 rs].
    + intros H. exists r1. split; [now left|exact H].
    + change (alts (r1 :: r2 :: rs)) with (Alt r1 (alts (r2 :: rs))).
      cbn [ends]. intros H. apply in_app_or in H as [H|H].
      * exists r1. split; [now left|exact H].
      * destruct (IH H) as (r0 & Hin & H0). exists r0. split; [now right|exact H0].
Qed.

Lemma search_ends (r : regex) (s m : string) :
  search r s = Some m -> exists s0 r0, In (m, r0) (ends r s0).
Proof.
  induction s as [|c s IH]; simpl.
  - destruct (ends r "") as [|[m0 r0] l] eqn:He; [discriminate|].
    intros [= <-]. exists "", r0. rewrite He. now left.
  - destruct (ends r (String c s)) as [|[m0 r0] l] eqn:He; [exact IH|].
    intros [= <-]. exists (String c s), r0. rewrite He. now left.
Qed.

(** What the pattern of the relative words finds is one of the four
    words, in some case. *)
Lemma relative_fragment (text f : string) :
  search pattern_relative text = Some f ->
  lower f ∈ ["tomorrow"; "today"; "next week"; "next month"].
Proof.
  intros H. apply search_ends in H as (s0 & r0 & H).
  unfold pattern_relative in H.
  apply alts_ends in H as (r1 & Hin & H).
  cbn [In] in Hin.
  destruct Hin as [<-|[<-|[<-|[<-|[]]]]]; apply lit_ends_lower in H;
    rewrite H.
  - apply list_elem_of_here.
  - apply list_elem_of_further, list_elem_of_here.
  - do 2 apply list_elem_of_further. apply list_elem_of_here.
  - do 3 apply list_elem_of_further. apply list_elem_of_here.
Qed.

End PatternFacts.

(** X14.  When no preposition fragment (by, due, deadline, until) is
    found and one of the words tomorrow, today, next week, next month is,
    in whatever case, the deadline is the fixed offset of that word from
    the current time and the date parser plays no part. *)
Theorem relative_word_deadline (e : env) (text f : string) :
  Re.search pattern_preposition text = None ->
  Re.search pattern_relative text = Some f ->
  let now := now_parse e in
  first_match deadline_patterns text = Some f
  /\ Text.lower f ∈ ["tomorrow"; "today"; "next week"; "next month"]
  /\ TaskData.deadline (parse_natural_language e text)
     = (if String.eqb (Text.lower f) "tomorrow" then Datetime.plus_days now 1
        else if String.eqb (Text.lower f) "today" then
          Some (Datetime.mk (Datetime.ordinal now) 23 59
                  (Datetime.second now) (Datetime.microsecond now))
        else if String.eqb (Text.lower f) "next week" then Datetime.plus_days now 7
        else Datetime.plus_days now 30).
Proof.
  intros Hp Hr now.
  assert (Hm : first_match deadline_patterns text = Some f).
  { unfold deadline_patterns. cbn [first_match]. now rewrite Hp, Hr. }
  pose proof (relative_fragment _ _ Hr) as Hf.
  split; [exact Hm|]. split; [exact Hf|].
  destruct (parse_fields e text) as (_ & _ & Hd). rewrite Hd, Hm.
  unfold resolve_deadline. fold now.
  repeat (apply elem_of_cons in Hf as [Hf|Hf]; [rewrite Hf; reflexivity|]).
  now apply elem_of_nil in Hf.
Qed.

Lemma relative_word_deadline_witness :
  first_match deadline_patterns "Ship the release Next Week" = Some "Next Week"
  /\ Text.lower "Next Week" ∈ ["tomorrow"; "today"; "next week"; "next month"]
  /\ TaskData.deadline (parse_natural_language env_a "Ship the release Next Week")
     = (if String.eqb (Text.lower "Next Week") "tomorrow"
        then Datetime.plus_days noon 1
        else if String.eqb (Text.lower "Next Week") "today" then
          Some (Datetime.mk (Datetime.ordinal noon) 23 59
                  (Datetime.second noon) (Datetime.microsecond noon))
        else if String.eqb (Text.lower "Next Week") "next week"
        then Datetime.plus_days noon 7
        else Datetime.plus_days noon 30).
Proof.
  apply (relative_word_deadline env_a "Ship the release Next Week" "Next Week").
  - vm_compute. reflexivity.
  - vm_compute. reflexivity.
Defined.

(** ** Fragments of the form "in N days" *)

Section InDaysFacts.
Import Text Re.

Lemma all_chars_app (p : ascii -> bool) (a b : string) :
  all_chars p (a +:+ b) = all_chars p a && all_chars p b.
Proof.
  induction a as [|c a IH]; simpl; [reflexivity|].
  now rewrite IH, andb_assoc.
Qed.

Lemma all_chars_lower (q p : ascii -> bool) (s : string) :
  (forall c, q c = true -> p (to_lower c) = true) ->
  all_chars q s = true -> all_chars p (lower s) = true.
Proof.
  intros Hqp. induction s as [|c s IH]; simpl; [reflexivity|]. intros H.
  apply andb_prop in H as [Hc Hs]. now rewrite (Hqp c Hc), IH.
Qed.

Lemma space_not_t_e (c : ascii) : is_space c = true -> not_t_e (to_lower c) = true.
Proof.
  destruct c as [[] [] [] [] [] [] [] []]; vm_compute; intros H;
    first [reflexivity | discriminate H].
Qed.

Lemma digit_not_t_e (c : ascii) : is_digit c = true -> not_t_e (to_lower c) = true.
Proof.
  destruct c as [[] [] [] [] [] [] [] []]; vm_compute; intros H;
    first [reflexivity | discriminate H].
Qed.

Lemma space_not_digit (c : ascii) : is_space c = true -> is_digit c = false.
Proof.
  destruct c as [[] [] [] [] [] [] [] []]; vm_compute; intros H;
    first [reflexivity | discriminate H].
Qed.

Lemma lower_in_not_digit (a : string) :
  lower a = "in" -> all_chars (fun c => negb (is_digit c)) a = true.
Proof.
  destruct a as [|x [|y [|z a]]]; try discriminate. simpl.
  intros [= Hx Hy].
  assert (H : forall c d, to_lower c = d -> is_digit d = false -> is_digit c = false).
  { intros c d <-. destruct c as [[] [] [] [] [] [] [] []]; vm_compute; congruence. }
  now rewrite (H x "i"%char Hx), (H y "n"%char Hy).
Qed.

(** A text without "t" has neither "tomorrow" nor "today"; a text without
    "e" has neither "next week" nor "next month". *)
Lemma contains_first_absent (x : ascii) (w s : string) :
  all_chars (fun c => negb (Ascii.eqb x c)) s = true ->
  contains (String x w) s = false.
Proof.
  induction s as [|c s IH]; [reflexivity|]. simpl. intros H.
  apply andb_prop in H as [Hc Hs]. apply negb_true_iff in Hc.
  now rewrite Hc, (IH Hs).
Qed.

Lemma contains_second_absent (x y : ascii) (w s : string) :
  all_chars (fun c => negb (Ascii.eqb y c)) s = true ->
  contains (String x (String y w)) s = false.
Proof.
  induction s as [|c s IH]; [reflexivity|]. intros H.
  cbn [all_chars] in H. apply andb_prop in H as [Hc Hs].
  cbn [contains]. rewrite (IH Hs), orb_false_r.
  cbn [startswith]. destruct s as [|d s]; [now rewrite andb_false_r|].
  cbn [all_chars] in Hs. apply andb_prop in Hs as [Hd _].
  apply negb_true_iff in Hd. now rewrite Hd, andb_false_r.
Qed.

Lemma all_chars_weaken (p q : ascii -> bool) (s : string) :
  (forall c, p c = true -> q c = true) ->
  all_chars p s = true -> all_chars q s = true.
Proof.
  intros Hpq. induction s as [|c s IH]; simpl; [reflexivity|]. intros H.
  apply andb_prop in H as [Hc Hs]. now rewrite (Hpq c Hc), IH.
Qed.

Lemma not_t_e_relative (l : string) :
  all_chars not_t_e l = true -> relative_word l = false.
Proof.
  intros H.
  assert (Ht : all_chars (fun c => negb (Ascii.eqb "t" c)) l = true).
  { apply (all_chars_weaken not_t_e); [|exact H].
    intros c Hc. unfold not_t_e in Hc. now apply andb_prop in Hc. }
  assert (He : all_chars (fun c => negb (Ascii.eqb "e" c)) l = true).
  { apply (all_chars_weaken not_t_e); [|exact H].
    intros c Hc. unfold not_t_e in Hc. now apply andb_prop in Hc. }
  unfold relative_word.
  rewrite (contains_first_absent "t" "omorrow" l Ht).
  rewrite (contains_first_absent "t" "oday" l Ht).
  rewrite (contains_second_absent "n" "e" "xt week" l He).
  now rewrite (contains_second_absent "n" "e" "xt month" l He).
Qed.

Lemma contains_prefix (p x : string) : contains p (p +:+ x) = true.
Proof. destruct p; simpl; [now destruct x|]. now rewrite Ascii.eqb_refl, startswith_app. Qed.

Lemma contains_app_r (sub a b : string) :
  contains sub b = true -> contains sub (a +:+ b) = true.
Proof.
  intros H. induction a as [|c a IH]; [exact H|].
  cbn [String.append contains]. now rewrite IH, orb_true_r.
Qed.

(** Cutting a match of a concatenation, of a run, of an option. *)
Lemma cat_ends (r1 r2 : regex) (s m r : string) :
  In (m, r) (ends (Cat r1 r2) s) ->
  exists m1 s1 m2,
    In (m1, s1) (ends r1 s) /\ In (m2, r) (ends r2 s1) /\ m = m1 +:+ m2.
Proof.
  cbn [ends]. intros H. apply in_flat_map in H as [[m1 s1] [H1 H]].
  apply in_map_iff in H as [[m2 s2] [[= <- <-] H2]]. now exists m1, s1, m2.
Qed.

Lemma runs_chars (p : ascii -> bool) (s m r : string) :
  In (m, r) (runs p s) -> all_chars p m = true.
Proof.
  revert m. induction s as [|c s IH]; intros m; simpl.
  - intros [[= <- <-]|[]]. reflexivity.
  - intros [[= <- <-]|H]; [reflexivity|].
    destruct (p c) eqn:Hc; [|destruct H].
    apply in_map_iff in H as [[m0 r0] [[= <- <-] H]].
    simpl. now rewrite Hc, (IH m0).
Qed.

Lemma plus_ends (g : bool) (p : ascii -> bool) (s m r : string) :
  In (m, r) (ends (plus g p) s) -> m <> "" /\ all_chars p m = true.
Proof.
  unfold plus. intros H. apply cat_ends in H as (m1 & s1 & m2 & H1 & H2 & ->).
  cbn [ends] in H1, H2. destruct s as [|c s]; [destruct H1|].
  destruct (p c) eqn:Hc; [|destruct H1]. destruct H1 as [[= <- <-]|[]].
  split; [discriminate|]. simpl. rewrite Hc. simpl.
  destruct g; [rewrite <- in_rev in H2|]; now apply runs_chars in H2.
Qed.

(** The shape of what the "in N days" pattern matches. *)
Lemma in_days_ends (s f r : string) :
  In (f, r) (ends pattern_in_days s) ->
  exists a sp1 ds sp2 b,
    f = a +:+ sp1 +:+ ds +:+ sp2 +:+ b
    /\ lower a = "in"
    /\ all_chars is_space sp1 = true
    /\ ds <> "" /\ all_chars is_digit ds = true
    /\ sp2 <> "" /\ all_chars is_space sp2 = true
    /\ (lower b = "day" \/ lower b = "days").
Proof.
  unfold pattern_in_days, seq. cbn [fold_right]. intros H.
  apply cat_ends in H as (a & s1 & m1 & Ha & H & ->).
  apply cat_ends in H as (sp1 & s2 & m2 & Hsp1 & H & ->).
  apply cat_ends in H as (ds & s3 & m3 & Hds & H & ->).
  apply cat_ends in H as (sp2 & s4 & m4 & Hsp2 & H & ->).
  apply cat_ends in H as (b & s5 & m5 & Hb & H & ->).
  apply cat_ends in H as (c & s6 & m6 & Hc & H & ->).
  cbn [ends] in H. destruct H as [[= <- <-]|[]].
  apply lit_ends_lower in Ha. apply lit_ends_lower in Hb.
  apply plus_ends in Hsp1 as [_ Hsp1]. apply plus_ends in Hds as [Hdn Hds].
  apply plus_ends in Hsp2 as [Hsn Hsp2].
  exists a, sp1, ds, sp2, (b +:+ c). rewrite app_nil_r.
  split; [reflexivity|]. split; [exact Ha|].
  split; [exact Hsp1|]. split; [exact Hdn|]. split; [exact Hds|].
  split; [exact Hsn|]. split; [exact Hsp2|].
  unfold opt in Hc. cbn [ends] in Hc. apply in_app_or in Hc as [Hc|Hc].
  - apply (lit_ends_lower "s") in Hc. right. now rewrite lower_app, Hb, Hc.
  - destruct Hc as [[= <- <-]|[]]. left. now rewrite app_nil_r.
Qed.

Lemma runs_longest (p : ascii -> bool) (m rest : string) :
  all_chars p m = true ->
  match rest with EmptyString => True | String c _ => p c = false end ->
  exists l, runs p (m +:+ rest) = (l ++ [(m, rest)])%list.
Proof.
  intros Hm Hrest. induction m as [|c m IH].
  - exists []. destruct rest as [|d rest]; [reflexivity|]. simpl. now rewrite Hrest.
  - simpl in Hm. apply andb_prop in Hm as [Hc Hm].
    destruct (IH Hm) as [l Hl]. cbn [String.append runs]. rewrite Hc, Hl.
    exists (("", String c (m +:+ rest)) :: map (fun '(m0, r0) => (String c m0, r0)) l).
    now rewrite map_app.
Qed.

(** The first integer of a text: the digits that follow a digit-free
    prefix, up to the first character that is not a digit. *)
Lemma search_digits_first (pre ds rest : string) :
  all_chars (fun c => negb (is_digit c)) pre = true ->
  ds <> "" -> all_chars is_digit ds = true ->
  match rest with EmptyString => True | String c _ => is_digit c = false end ->
  search digits (pre +:+ ds +:+ rest) = Some ds.
Proof.
  intros Hpre Hne Hds Hrest. induction pre as [|c pre IH].
  - destruct ds as [|d ds]; [congruence|]. simpl in Hds.
    apply andb_prop in Hds as [Hd Hds].
    destruct (runs_longest is_digit ds rest Hds Hrest) as [l Hl].
    cbn [String.append search]. unfold digits, plus. cbn [ends].
    rewrite Hd. cbn [flat_map]. rewrite Hl, rev_unit. reflexivity.
  - simpl in Hpre. apply andb_prop in Hpre as [Hc Hpre].
    apply negb_true_iff in Hc.
    cbn [String.append search]. unfold digits, plus at 1. cbn [ends].
    rewrite Hc. cbn [flat_map]. now apply IH.
Qed.

End InDaysFacts.

(** X15.  For an input of characters below code point 128: when none of
    the four patterns that come first matches and the pattern "in N
    days" does, the fragment is "in", whitespace, the digits of N,
    whitespace, "day" or "days" (in whatever case), and the deadline is
    now + N days for that N: none of the relative words and not the date
    parser decides it.  (Beyond code point 128 the pattern also matches
    a dotless or dotted "i", which lowering does not turn into "in".) *)
Theorem in_days_deadline (e : env) (text f : string) :
  all_chars is_ascii text = true ->
  Re.search pattern_preposition text = None ->
  Re.search pattern_relative text = None ->
  Re.search pattern_date_year text = None ->
  Re.search pattern_date text = None ->
  Re.search pattern_in_days text = Some f ->
  exists a sp1 ds sp2 b,
    f = a +:+ sp1 +:+ ds +:+ sp2 +:+ b
    /\ Text.lower a = "in"
    /\ all_chars Text.is_space sp1 = true
    /\ ds <> "" /\ all_chars Text.is_digit ds = true
    /\ all_chars Text.is_space sp2 = true
    /\ (Text.lower b = "day" \/ Text.lower b = "days")
    /\ first_match deadline_patterns text = Some f
    /\ TaskData.deadline (parse_natural_language e text)
       = Datetime.plus_days (now_parse e) (Text.int ds).
Proof.
  intros _ H1 H2 H3 H4 H5.
  assert (Hm : first_match deadline_patterns text = Some f).
  { unfold deadline_patterns. cbn [first_match]. now rewrite H1, H2, H3, H4, H5. }
  destruct (search_ends _ _ _ H5) as (s0 & r0 & He).
  destruct (in_days_ends _ _ _ He)
    as (a & sp1 & ds & sp2 & b & Hf & Ha & Hsp1 & Hdn & Hds & Hsn & Hsp2 & Hb).
  exists a, sp1, ds, sp2, b.
  repeat (split; [assumption|]).
  destruct (parse_fields e text) as (_ & _ & Hd). rewrite Hd, Hm.
  (* the lowered fragment *)
  assert (Hl : Text.lower f
               = "in" +:+ Text.lower sp1 +:+ Text.lower ds +:+ Text.lower sp2
                 +:+ Text.lower b).
  { now rewrite Hf, !lower_app, Ha. }
  assert (Hb' : all_chars not_t_e (Text.lower b) = true
                /\ Text.contains "day" (Text.lower b) = true).
  { destruct Hb as [-> | ->]; now split. }
  destruct Hb' as [Hbt Hbd].
  assert (Hrel : relative_word (Text.lower f) = false).
  { apply not_t_e_relative. rewrite Hl, !all_chars_app.
    rewrite (all_chars_lower Text.is_space not_t_e sp1 space_not_t_e Hsp1).
    rewrite (all_chars_lower Text.is_digit not_t_e ds digit_not_t_e Hds).
    rewrite (all_chars_lower Text.is_space not_t_e sp2 space_not_t_e Hsp2).
    now rewrite Hbt. }
  assert (Hin : Text.contains "in" (Text.lower f) = true).
  { rewrite Hl. apply contains_prefix. }
  assert (Hday : Text.contains "day" (Text.lower f) = true).
  { rewrite Hl. now do 4 apply contains_app_r. }
  assert (Hdigits : Re.search Re.digits f = Some ds).
  { rewrite Hf.
    replace (a +:+ sp1 +:+ ds +:+ sp2 +:+ b)
      with ((a +:+ sp1) +:+ ds +:+ (sp2 +:+ b))
      by (now rewrite <- !app_assoc).
    apply search_digits_first; [|exact Hdn|exact Hds|].
    - rewrite all_chars_app, (lower_in_not_digit a Ha). simpl.
      apply (all_chars_weaken Text.is_space); [|exact Hsp1].
      intros c Hc. now rewrite (space_not_digit c Hc).
    - destruct sp2 as [|c sp2]; [congruence|]. simpl in Hsp2 |- *.
      apply andb_prop in Hsp2 as [Hc _]. now apply space_not_digit. }
  apply relative_word_false in Hrel as (R1 & R2 & R3 & R4).
  unfold resolve_deadline. now rewrite R1, R2, R3, R4, Hin, Hday, Hdigits.
Qed.

Lemma in_days_deadline_witness :
  exists a sp1 ds sp2 b,
    "IN  12 Days" = a +:+ sp1 +:+ ds +:+ sp2 +:+ b
    /\ Text.lower a = "in"
    /\ all_chars Text.is_space sp1 = true
    /\ ds <> "" /\ all_chars Text.is_digit ds = true
    /\ all_chars Text.is_space sp2 = true
    /\ (Text.lower b = "day" \/ Text.lower b = "days")
    /\ first_match deadline_patterns "Renew passport IN  12 Days" = Some "IN  12 Days"
    /\ TaskData.deadline (parse_natural_language env_a "Renew passport IN  12 Days")
       = Datetime.plus_days (now_parse env_a) (Text.int ds).
Proof.
  apply (in_days_deadline env_a "Renew passport IN  12 Days" "IN  12 Days");
    vm_compute; reflexivity.
Defined.

(** ** Whitespace and letter case in a command line *)

Section PaddingFacts.
Import Text.

Lemma lstrip_fixed (z : string) :
  lstrip z = z <-> match z with EmptyString => True | String c _ => is_space c = false end.
Proof.
  destruct z as [|c z]; [now split|]. split.
  - intros H. now apply (lstrip_head _ _ _ H).
  - intros H. simpl. now rewrite H.
Qed.

Lemma lstrip_idempotent (s : string) : lstrip (lstrip s) = lstrip s.
Proof.
  apply lstrip_fixed. destruct (lstrip s) as [|d l] eqn:H; [exact I|].
  now apply (lstrip_head _ _ _ H).
Qed.

Lemma rstrip_idempotent (s : string) : rstrip (rstrip s) = rstrip s.
Proof.
  induction s as [|c s IH]; [reflexivity|]. simpl.
  destruct (rstrip s) as [|d r] eqn:Hr.
  - destruct (is_space c) eqn:Hc; [reflexivity|]. simpl. now rewrite Hc.
  - cbn [rstrip]. cbn [rstrip] in IH. now rewrite IH.
Qed.

Lemma lstrip_rstrip (z : string) : lstrip z = z -> lstrip (rstrip z) = rstrip z.
Proof.
  intros H. apply lstrip_fixed in H. apply lstrip_fixed.
  destruct (rstrip z) as [|c r] eqn:Hr; [exact I|].
  destruct z as [|d z]; [discriminate|]. now apply rstrip_head in Hr as ->.
Qed.

Lemma strip_idempotent (s : string) : strip (strip s) = strip s.
Proof.
  unfold strip. rewrite lstrip_rstrip by apply lstrip_idempotent.
  apply rstrip_idempotent.
Qed.

Lemma lstrip_all_space_app (gap x : string) :
  all_space gap = true -> lstrip (gap +:+ x) = lstrip x.
Proof.
  induction gap as [|c gap IH]; [reflexivity|]. simpl. intros H.
  apply andb_prop in H as [Hc Hg]. rewrite Hc. now apply IH.
Qed.

Lemma rstrip_app_fixed (a r : string) :
  rstrip r = r -> r <> "" -> rstrip (a +:+ r) = a +:+ r.
Proof.
  intros Hr Hne. induction a as [|c a IH]; [exact Hr|].
  cbn [String.append rstrip]. rewrite IH.
  destruct (a +:+ r) eqn:Heq; [|reflexivity].
  apply app_empty in Heq as [_ ->]. now destruct Hne.
Qed.

(** A non-empty text that [strip] leaves alone starts and ends with a
    character that is not whitespace. *)
Lemma strip_fixed (r : string) :
  strip r = r -> r <> "" -> lstrip r = r /\ rstrip r = r.
Proof.
  unfold strip. intros Hs Hne.
  assert (Hl : lstrip r = r).
  { apply lstrip_fixed. destruct r as [|c r]; [exact I|].
    destruct (lstrip (String c r)) as [|d l] eqn:Hd; [discriminate|].
    pose proof (lstrip_head _ _ _ Hd) as Hsp.
    now apply rstrip_head in Hs as ->. }
  split; [exact Hl|]. now rewrite Hl in Hs.
Qed.

Lemma gap_head (gap x : string) :
  all_space gap = true -> gap <> "" ->
  match gap +:+ x with EmptyString => True | String c _ => is_space c = true end.
Proof.
  destruct gap as [|c gap]; [congruence|]. simpl. intros H _.
  now apply andb_prop in H.
Qed.

(** The tokens of a verb, a word and a rest, whatever whitespace
    separates them. *)
Lemma parts_of_gaps (w1 gap1 w2 gap2 rest : string) :
  is_word w1 = true -> is_word w2 = true ->
  all_space gap1 = true -> gap1 <> "" ->
  all_space gap2 = true -> gap2 <> "" ->
  strip rest = rest -> rest <> "" ->
  strip (w1 +:+ gap1 +:+ w2 +:+ gap2 +:+ rest)
  = w1 +:+ gap1 +:+ w2 +:+ gap2 +:+ rest
  /\ parts_of (w1 +:+ gap1 +:+ w2 +:+ gap2 +:+ rest) = [w1; w2; rest].
Proof.
  intros H1 H2 Hg1 Hn1 Hg2 Hn2 Hs Hne.
  destruct (strip_fixed rest Hs Hne) as [Hl Hr].
  assert (Hstrip : strip (w1 +:+ gap1 +:+ w2 +:+ gap2 +:+ rest)
                   = w1 +:+ gap1 +:+ w2 +:+ gap2 +:+ rest).
  { unfold strip. rewrite lstrip_word by exact H1.
    rewrite !app_assoc. apply rstrip_app_fixed; assumption. }
  split; [exact Hstrip|]. unfold parts_of. rewrite Hstrip.
  assert (Hrest : nonempty rest = true) by now apply nonempty_true.
  rewrite split_ws_S, lstrip_word by exact H1.
  rewrite nonempty_app_r by (auto using nonempty_app_r).
  rewrite take_word_app;
    [|now apply is_word_no_space|now apply gap_head].
  f_equal. rewrite split_ws_S, lstrip_all_space_app by exact Hg1.
  rewrite lstrip_word by exact H2.
  rewrite nonempty_app_r by (auto using nonempty_app_r).
  rewrite take_word_app;
    [|now apply is_word_no_space|now apply gap_head].
  f_equal. rewrite split_ws_O, lstrip_all_space_app by exact Hg2.
  now rewrite Hl, Hrest.
Qed.

Lemma rstrip_no_space_app (w x : string) :
  no_space w = true -> rstrip (w +:+ x) = w +:+ rstrip x.
Proof.
  induction w as [|c w IH]; [reflexivity|]. simpl. intros H.
  apply andb_prop in H as [Hc Hw]. apply negb_true_iff in Hc.
  rewrite (IH Hw). destruct (w +:+ rstrip x) eqn:Heq; [|reflexivity].
  now rewrite Hc.
Qed.

Lemma rstrip_keeps_head (x : string) :
  match x with EmptyString => True | String c _ => is_space c = true end ->
  match rstrip x with EmptyString => True | String c _ => is_space c = true end.
Proof.
  intros H. destruct (rstrip x) as [|c r] eqn:Hr; [exact I|].
  destruct x as [|d x]; [discriminate|]. now apply rstrip_head in Hr as ->.
Qed.

(** The tokens of a text that starts with a word: the word, then the
    tokens of what follows. *)
Lemma parts_of_verb (verb x : string) :
  is_word verb = true ->
  match x with EmptyString => True | String c _ => is_space c = true end ->
  strip (verb +:+ x) <> ""
  /\ parts_of (verb +:+ x) = verb :: split_ws 1 (rstrip x).
Proof.
  intros Hv Hx.
  assert (Hs : strip (verb +:+ x) = verb +:+ rstrip x).
  { unfold strip. rewrite lstrip_word by exact Hv.
    apply rstrip_no_space_app. now apply is_word_no_space. }
  split.
  - rewrite Hs. destruct verb; [discriminate|discriminate].
  - unfold parts_of. rewrite Hs, split_ws_S, lstrip_word by exact Hv.
    assert (Hn : nonempty (verb +:+ rstrip x) = true)
      by (destruct verb; [discriminate|reflexivity]).
    rewrite Hn, take_word_app;
      [reflexivity|now apply is_word_no_space|now apply rstrip_keeps_head].
Qed.

Lemma route_lower_verb (e : env) (user_id verb : string) (rest : list string)
    (s : state) :
  route e user_id (verb :: rest) s = route e user_id (lower verb :: rest) s.
Proof. unfold route. cbn [hd]. now rewrite lower_idempotent. Qed.

End PaddingFacts.

(** X16.  Whitespace around a command line does not matter, and neither
    does the case of the letters of its first word: the command is
    handled as the trimmed line is, and as the line with its verb
    lowered is. *)
Theorem padding_and_verb_case (e : env) (user_id form_text : string) (s : state) :
  handle_slack_command e user_id form_text s
  = handle_slack_command e user_id (Text.strip form_text) s
  /\ forall verb x,
       form_text = verb +:+ x ->
       is_word verb = true ->
       match x with EmptyString => True | String c _ => Text.is_space c = true end ->
       handle_slack_command e user_id form_text s
       = handle_slack_command e user_id (Text.lower verb +:+ x) s.
Proof.
  split.
  - unfold handle_slack_command. cbv zeta. now rewrite strip_idempotent.
  - intros verb x -> Hv Hx.
    destruct (parts_of_verb verb x Hv Hx) as [Hs Hp].
    assert (Hv' : is_word (Text.lower verb) = true) by now rewrite is_word_lower.
    destruct (parts_of_verb (Text.lower verb) x Hv' Hx) as [Hs' Hp'].
    rewrite !handle_route by assumption. rewrite Hp, Hp'.
    apply route_lower_verb.
Qed.

Lemma padding_and_verb_case_witness :
  handle_slack_command env_a bob "DELETE 3f2a9c1e" state_a
  = handle_slack_command env_a bob (Text.lower "DELETE" +:+ " 3f2a9c1e") state_a.
Proof.
  apply (proj2 (padding_and_verb_case env_a bob "DELETE 3f2a9c1e" state_a)
               "DELETE" " 3f2a9c1e").
  - reflexivity.
  - reflexivity.
  - reflexivity.
Defined.

(** X17.  What create hands to the extractor is the second token, one
    space, and the rest of the line: whatever whitespace stands between
    the first word of the description and the rest (a line feed, several
    spaces) is replaced by one space, while the rest is passed as it is. *)
Theorem create_first_gap (e : env) (user_id w gap rest : string) (s : state) :
  is_word w = true ->
  all_space gap = true -> gap <> "" ->
  Text.strip rest = rest -> rest <> "" ->
  parts_of ("create " +:+ w +:+ gap +:+ rest) = ["create"; w; rest]
  /\ handle_slack_command e user_id ("create " +:+ w +:+ gap +:+ rest) s
     = (fst (create_task e user_id
               (parse_natural_language e (w +:+ " " +:+ rest)) s),
        in_channel (format_task_response
                      (new_task e (parse_natural_language e
                                     (w +:+ " " +:+ rest)))))
  /\ handle_slack_command e user_id ("create " +:+ w +:+ gap +:+ rest) s
     = handle_slack_command e user_id ("create " +:+ w +:+ " " +:+ rest) s.
Proof.
  intros Hw Hg Hn Hs Hne.
  assert (Hgen : forall g, all_space g = true -> g <> "" ->
            parts_of ("create " +:+ w +:+ g +:+ rest) = ["create"; w; rest]
            /\ handle_slack_command e user_id ("create " +:+ w +:+ g +:+ rest) s
               = (fst (create_task e user_id
                         (parse_natural_language e (w +:+ " " +:+ rest)) s),
                  in_channel (format_task_response
                                (new_task e (parse_natural_language e
                                               (w +:+ " " +:+ rest)))))).
  { intros g Hg' Hn'.
    destruct (parts_of_gaps "create" " " w g rest) as [_ Hp];
      try assumption; try reflexivity; try discriminate.
    change ("create" +:+ " " +:+ w +:+ g +:+ rest)
      with ("create " +:+ w +:+ g +:+ rest) in Hp.
    split; [exact Hp|].
    rewrite handle_create; rewrite ?Hp; [reflexivity| |simpl; lia].
    unfold action_of. now rewrite Hp. }
  destruct (Hgen gap Hg Hn) as [Hp Hh].
  split; [exact Hp|]. split; [exact Hh|].
  rewrite Hh. symmetry. now apply (Hgen " ").
Qed.

Lemma create_first_gap_witness :
  parts_of ("create " +:+ "Plan" +:+ nl +:+ "Book flights") = ["create"; "Plan"; "Book flights"]
  /\ handle_slack_command env_a alice ("create " +:+ "Plan" +:+ nl +:+ "Book flights") empty_state
     = (fst (create_task env_a alice
               (parse_natural_language env_a ("Plan" +:+ " " +:+ "Book flights"))
               empty_state),
        in_channel (format_task_response
                      (new_task env_a (parse_natural_language env_a
                                         ("Plan" +:+ " " +:+ "Book flights")))))
  /\ handle_slack_command env_a alice ("create " +:+ "Plan" +:+ nl +:+ "Book flights") empty_state
     = handle_slack_command env_a alice ("create " +:+ "Plan" +:+ " " +:+ "Book flights") empty_state.
Proof.
  apply (create_first_gap env_a alice "Plan" nl "Book flights" empty_state).
  - reflexivity.
  - reflexivity.
  - discriminate.
  - reflexivity.
  - discriminate.
Defined.

(** X18.  show and delete read the token after the verb and nothing
    else: whatever follows the task id on the line is ignored. *)
Theorem text_after_id_ignored (e : env) (user_id verb t gap rest : string)
    (s : state) :
  verb ∈ ["show"; "delete"] ->
  is_word t = true ->
  all_space gap = true -> gap <> "" ->
  Text.strip rest = rest -> rest <> "" ->
  handle_slack_command e user_id (verb +:+ " " +:+ t +:+ gap +:+ rest) s
  = handle_slack_command e user_id (verb +:+ " " +:+ t) s.
Proof.
  intros Hv Ht Hg Hn Hs Hne.
  assert (Hverb : is_word verb = true).
  { repeat (apply elem_of_cons in Hv as [->|Hv]; [reflexivity|]).
    now apply elem_of_nil in Hv. }
  destruct (parts_of_gaps verb " " t gap rest) as [Hstrip Hp];
    try assumption; try reflexivity; try discriminate.
  rewrite handle_route by (rewrite Hstrip; destruct verb; discriminate).
  rewrite Hp, handle_two by assumption.
  repeat (apply elem_of_cons in Hv as [->|Hv]; [reflexivity|]).
  now apply elem_of_nil in Hv.
Qed.

Lemma text_after_id_ignored_witness :
  handle_slack_command env_a bob
    ("delete" +:+ " " +:+ "3f2a9c1e" +:+ " " +:+ "but only if done") state_a
  = handle_slack_command env_a bob ("delete" +:+ " " +:+ "3f2a9c1e") state_a.
Proof.
  apply (text_after_id_ignored env_a bob "delete" "3f2a9c1e" " "
           "but only if done" state_a).
  - apply list_elem_of_further, list_elem_of_here.
  - reflexivity.
  - reflexivity.
  - discriminate.
  - reflexivity.
  - discriminate.
Defined.

(** ** Calendar dates and weekday names *)

Section DateFacts.
Import Text Re.

Lemma ends_regex_chars (q : ascii -> bool) (r : regex) (s m rest : string) :
  regex_chars q r -> In (m, rest) (ends r s) -> all_chars q m = true.
Proof.
  revert s m rest. induction r as [|p|r1 IH1 r2 IH2|r1 IH1 r2 IH2|g p|];
    intros s m rest Hq; cbn [ends regex_chars] in *.
  - intros [[= <- <-]|[]]. reflexivity.
  - destruct s as [|c s]; [intros []|].
    destruct (p c) eqn:Hc; [|intros []]. intros [[= <- <-]|[]].
    simpl. now rewrite (Hq c Hc).
  - destruct Hq as [Hq1 Hq2]. intros H.
    apply in_flat_map in H as [[m1 s1] [H1 H]].
    apply in_map_iff in H as [[m2 s2] [[= <- <-] H2]].
    now rewrite all_chars_app, (IH1 _ _ _ Hq1 H1), (IH2 _ _ _ Hq2 H2).
  - destruct Hq as [Hq1 Hq2]. intros H.
    apply in_app_or in H as [H|H]; eauto.
  - intros H. destruct g; [rewrite <- in_rev in H|];
      apply runs_chars in H; now apply (all_chars_weaken p).
  - destruct s as [|c [|d s]].
    + intros [[= <- <-]|[]]. reflexivity.
    + destruct (Ascii.eqb c "010"); [|intros []].
      intros [[= <- <-]|[]]. reflexivity.
    + intros [].
Qed.

Lemma slash_class (c : ascii) :
  Ascii.eqb (to_lower c) (to_lower "/") = true -> digit_or_slash c = true.
Proof.
  destruct c as [[] [] [] [] [] [] [] []]; vm_compute; intros H;
    first [reflexivity | discriminate H].
Qed.

Lemma digit_class (c : ascii) : is_digit c = true -> digit_or_slash c = true.
Proof. intros H. unfold digit_or_slash. now rewrite H. Qed.

Lemma date_year_chars : regex_chars digit_or_slash pattern_date_year.
Proof.
  unfold pattern_date_year, seq, digit12, digit4, seq, opt, digit.
  cbn [fold_right lit ci regex_chars].
  repeat split; try exact digit_class; try exact slash_class.
Qed.

Lemma date_chars : regex_chars digit_or_slash pattern_date.
Proof.
  unfold pattern_date, seq, digit12, opt, digit.
  cbn [fold_right lit ci regex_chars].
  repeat split; try exact digit_class; try exact slash_class.
Qed.

Lemma digit_or_slash_plain (c : ascii) :
  digit_or_slash c = true ->
  not_t_e (to_lower c) = true /\ negb (Ascii.eqb "i" (to_lower c)) = true.
Proof.
  destruct c as [[] [] [] [] [] [] [] []]; vm_compute; intros H;
    first [now split | discriminate H].
Qed.

(** A fragment of digits and slashes falls through every test of the
    resolution down to the date parser. *)
Lemma resolve_digits_slashes (e : env) (f : string) :
  all_chars digit_or_slash f = true ->
  resolve_deadline e f = parser_parse e f.
Proof.
  intros H.
  assert (Hrel : relative_word (lower f) = false).
  { apply not_t_e_relative. apply (all_chars_lower digit_or_slash); [|exact H].
    intros c Hc. now apply digit_or_slash_plain. }
  assert (Hin : contains "in" (lower f) = false).
  { apply contains_first_absent.
    apply (all_chars_lower digit_or_slash); [|exact H].
    intros c Hc. now apply digit_or_slash_plain. }
  apply relative_word_false in Hrel as (R1 & R2 & R3 & R4).
  unfold resolve_deadline. now rewrite R1, R2, R3, R4, Hin.
Qed.

Lemma weekday_fragment (text f : string) :
  search pattern_weekday text = Some f -> lower f ∈ weekdays.
Proof.
  intros H. apply search_ends in H as (s0 & r0 & H).
  unfold pattern_weekday in H.
  apply alts_ends in H as (r1 & Hin & H).
  cbn [In] in Hin. unfold weekdays.
  destruct Hin as [<-|[<-|[<-|[<-|[<-|[<-|[<-|[]]]]]]]];
    apply lit_ends_lower in H; rewrite H.
  - apply list_elem_of_here.
  - do 1 apply list_elem_of_further. apply list_elem_of_here.
  - do 2 apply list_elem_of_further. apply list_elem_of_here.
  - do 3 apply list_elem_of_further. apply list_elem_of_here.
  - do 4 apply list_elem_of_further. apply list_elem_of_here.
  - do 5 apply list_elem_of_further. apply list_elem_of_here.
  - do 6 apply list_elem_of_further. apply list_elem_of_here.
Qed.

Lemma resolve_weekday (e : env) (f : string) :
  lower f ∈ weekdays -> resolve_deadline e f = parser_parse e f.
Proof.
  unfold weekdays, resolve_deadline. intros H.
  repeat (apply elem_of_cons in H as [H|H]; [rewrite H; reflexivity|]).
  now apply elem_of_nil in H.
Qed.

End DateFacts.

(** X19.  When neither a preposition fragment nor a relative word is
    found, a slash-delimited date (with or without year) is handed to the
    date parser as it is, and so is a weekday name when no "in N days"
    fragment is found either: the deadline is the verdict of the parser,
    absent when the parser fails. *)
Theorem dates_and_weekdays_go_to_parser (e : env) (text f : string) :
  Re.search pattern_preposition text = None ->
  Re.search pattern_relative text = None ->
  Re.search pattern_date_year text = Some f
  \/ (Re.search pattern_date_year text = None
      /\ Re.search pattern_date text = Some f)
  \/ (Re.search pattern_date_year text = None
      /\ Re.search pattern_date text = None
      /\ Re.search pattern_in_days text = None
      /\ Re.search pattern_weekday text = Some f) ->
  first_match deadline_patterns text = Some f
  /\ TaskData.deadline (parse_natural_language e text) = parser_parse e f
  /\ (parser_parse e f = None ->
      TaskData.deadline (parse_natural_language e text) = None).
Proof.
  intros H1 H2 H.
  assert (Hboth : first_match deadline_patterns text = Some f
                  /\ resolve_deadline e f = parser_parse e f).
  { unfold deadline_patterns. cbn [first_match]. rewrite H1, H2.
    destruct H as [H3|[[H3 H4]|(H3 & H4 & H5 & H6)]].
    - rewrite H3. split; [reflexivity|].
      apply resolve_digits_slashes.
      destruct (search_ends _ _ _ H3) as (s0 & r0 & He).
      apply (ends_regex_chars _ _ _ _ _ date_year_chars He).
    - rewrite H3, H4. split; [reflexivity|].
      apply resolve_digits_slashes.
      destruct (search_ends _ _ _ H4) as (s0 & r0 & He).
      apply (ends_regex_chars _ _ _ _ _ date_chars He).
    - rewrite H3, H4, H5, H6. split; [reflexivity|].
      apply resolve_weekday. now apply (weekday_fragment text). }
  destruct Hboth as [Hm Hr]. split; [exact Hm|].
  destruct (parse_fields e text) as (_ & _ & Hd). rewrite Hd, Hm, Hr.
  split; [reflexivity|auto].
Qed.

Lemma dates_and_weekdays_go_to_parser_witness :
  first_match deadline_patterns "Team lunch 12/25" = Some "12/25"
  /\ TaskData.deadline (parse_natural_language env_a "Team lunch 12/25")
     = parser_parse env_a "12/25"
  /\ (parser_parse env_a "12/25" = None ->
      TaskData.deadline (parse_natural_language env_a "Team lunch 12/25") = None).
Proof.
  apply (dates_and_weekdays_go_to_parser env_a "Team lunch 12/25" "12/25").
  - vm_compute. reflexivity.
  - vm_compute. reflexivity.
  - right. left. split; vm_compute; reflexivity.
Defined.

(** X20.  A user without index entry who creates a task and then deletes
    it is left with an empty index entry, not with none: the listing is
    the empty-state message again, the store has no task under that id,
    and the user is still an entry of the index. *)
Theorem create_then_delete_leaves_empty_entry
    (e e' e'' : env) (user_id form_text : string) (s : state) :
  action_of form_text = "create" ->
  2 <= length (parts_of form_text) ->
  is_word (generate_task_id e) = true ->
  user_tasks s !! user_id = None ->
  let s1 := fst (handle_slack_command e user_id form_text s) in
  let s2 := fst (handle_slack_command e' user_id
                   ("delete " +:+ generate_task_id e) s1) in
  user_tasks s1 !! user_id = Some [generate_task_id e]
  /\ user_tasks s2 !! user_id = Some []
  /\ tasks_db s2 !! generate_task_id e = None
  /\ handle_slack_command e'' user_id "list" s2
     = (s2, ephemeral "📭 You don't have any tasks yet! Use `/task create <task description>` to create one.")
  /\ handle_slack_command e'' user_id "list" s
     = (s, ephemeral "📭 You don't have any tasks yet! Use `/task create <task description>` to create one.").
Proof.
  intros Ha Hl Hw Hu s1 s2.
  assert (H1 : user_tasks s1 !! user_id = Some [generate_task_id e]).
  { subst s1. rewrite handle_create by assumption. cbn [fst].
    now rewrite create_task_index, lookup_insert_eq, Hu. }
  assert (Hdb : tasks_db s1 !! generate_task_id e
                = Some (new_task e (parse_natural_language e
                                      (Text.join " " (tl (parts_of form_text)))))).
  { subst s1. rewrite handle_create by assumption. cbn [fst].
    now rewrite create_task_db, lookup_insert_eq. }
  assert (H2 : s2 = State (delete (generate_task_id e) (tasks_db s1))
                          (unindex user_id (generate_task_id e) (user_tasks s1))).
  { subst s2. change ("delete " +:+ generate_task_id e)
      with ("delete" +:+ " " +:+ generate_task_id e).
    rewrite handle_two by (reflexivity || exact Hw).
    unfold route. simpl. unfold do_delete. now rewrite Hdb. }
  assert (H3 : user_tasks s2 !! user_id = Some []).
  { rewrite H2. cbn [user_tasks]. rewrite unindex_caller, H1. simpl.
    now rewrite String.eqb_refl. }
  split; [exact H1|]. split; [exact H3|]. split.
  { rewrite H2. cbn [tasks_db]. apply lookup_delete_eq. }
  assert (Hlist : forall st, handle_slack_command e'' user_id "list" st
                             = (st, ephemeral (list_user_tasks user_id st))).
  { intros st. rewrite handle_route by discriminate. reflexivity. }
  rewrite !Hlist. unfold list_user_tasks. now rewrite H3, Hu.
Qed.

Lemma create_then_delete_leaves_empty_entry_witness :
  let s1 := fst (handle_slack_command env_a alice
                   "create Review proposal by tomorrow" empty_state) in
  let s2 := fst (handle_slack_command env_b alice
                   ("delete " +:+ generate_task_id env_a) s1) in
  user_tasks s1 !! alice = Some [generate_task_id env_a]
  /\ user_tasks s2 !! alice = Some []
  /\ tasks_db s2 !! generate_task_id env_a = None
  /\ handle_slack_command env_b alice "list" s2
     = (s2, ephemeral "📭 You don't have any tasks yet! Use `/task create <task description>` to create one.")
  /\ handle_slack_command env_b alice "list" empty_state
     = (empty_state, ephemeral "📭 You don't have any tasks yet! Use `/task create <task description>` to create one.").
Proof.
  apply (create_then_delete_leaves_empty_entry env_a env_b env_b alice
           "create Review proposal by tomorrow" empty_state).
  - reflexivity.
  - vm_compute. lia.
  - reflexivity.
  - reflexivity.
Defined.

(** ** What a command leaves of the stored tasks *)

(** X21.  When a create does not draw an id that is already a key of the
    store: the task that create stores has status pending and the
    creation time as created_at; an update leaves the index as it is,
    leaves every other task as it is and changes nothing but the status
    of its own task; and across any command a task that is still stored
    keeps its id, title, description, deadline, created_at and subtasks,
    only its status can differ. *)
Theorem field_frame_without_collision (e : env) (user_id form_text : string)
    (s : state) :
  (action_of form_text = "create" -> tasks_db s !! generate_task_id e = None) ->
  let s' := fst (handle_slack_command e user_id form_text s) in
  let parts := parts_of form_text in
  (action_of form_text = "create" -> 2 <= length parts ->
     exists task,
       tasks_db s' !! generate_task_id e = Some task
       /\ Task.status task = "pending"
       /\ Task.created_at task = now_create e)
  /\ (action_of form_text = "update" ->
        user_tasks s' = user_tasks s
        /\ (forall t, t <> nth 1 parts "" -> tasks_db s' !! t = tasks_db s !! t)
        /\ (forall old, tasks_db s !! nth 1 parts "" = Some old ->
              exists new,
                tasks_db s' !! nth 1 parts "" = Some new
                /\ new = Task.with_status (Task.status new) old))
  /\ (forall t old new,
        tasks_db s !! t = Some old ->
        tasks_db s' !! t = Some new ->
        new = Task.with_status (Task.status new) old).
Proof.
  intros Hfresh s' parts.
  pose proof (handle_transition e user_id form_text s) as Htr.
  fold s' parts in Htr. unfold action_of in *. fold parts in Hfresh |- *.
  assert (Hid : forall x : Task.t, x = Task.with_status (Task.status x) x)
    by (now intros []).
  split.
  { intros Ha Hl.
    exists (new_task e (parse_natural_language e (Text.join " " (tl parts)))).
    subst s'. rewrite handle_route by (apply parts_nonempty_strip; fold parts; lia).
    fold parts. rewrite route_create by assumption. cbn [fst].
    rewrite create_task_db, lookup_insert_eq. now repeat split. }
  clearbody s'.
  destruct Htr as [|Ha' Hl|task st Ha' Hl Ht Hst Hv|task Ha' Hl Ht].
  - split; [now repeat split; eauto|].
    intros t old new Hold Hnew.
    rewrite Hold in Hnew. injection Hnew as <-. apply Hid.
  - split; [intros Ha; congruence|].
    intros t old new Hold Hnew. rewrite create_task_db in Hnew.
    destruct (decide (generate_task_id e = t)) as [<-|Hne].
    + rewrite (Hfresh Ha') in Hold. discriminate.
    + rewrite lookup_insert_ne in Hnew by exact Hne.
      rewrite Hold in Hnew. injection Hnew as <-. apply Hid.
  - cbn [tasks_db user_tasks]. split.
    + intros _. split; [reflexivity|]. split.
      * intros t Hne. now rewrite lookup_insert_ne.
      * intros old Hold. exists (Task.with_status st old).
        rewrite lookup_insert_eq. split; [congruence|reflexivity].
    + intros t old new Hold Hnew.
      destruct (decide (nth 1 parts "" = t)) as [<-|Hne].
      * rewrite lookup_insert_eq in Hnew. injection Hnew as <-.
        rewrite Hold in Ht. injection Ht as ->. reflexivity.
      * rewrite lookup_insert_ne in Hnew by exact Hne.
        rewrite Hold in Hnew. injection Hnew as <-. apply Hid.
  - cbn [tasks_db user_tasks]. split; [intros Ha; congruence|].
    intros t old new Hold Hnew.
    destruct (decide (nth 1 parts "" = t)) as [<-|Hne].
    + now rewrite lookup_delete_eq in Hnew.
    + rewrite lookup_delete_ne in Hnew by exact Hne.
      rewrite Hold in Hnew. injection Hnew as <-. apply Hid.
Qed.

Lemma field_frame_without_collision_witness :
  let s' := fst (handle_slack_command env_d bob "create Book flights" state_a) in
  let parts := parts_of "create Book flights" in
  (action_of "create Book flights" = "create" -> 2 <= length parts ->
     exists task,
       tasks_db s' !! generate_task_id env_d = Some task
       /\ Task.status task = "pending"
       /\ Task.created_at task = now_create env_d)
  /\ (action_of "create Book flights" = "update" ->
        user_tasks s' = user_tasks state_a
        /\ (forall t, t <> nth 1 parts "" -> tasks_db s' !! t = tasks_db state_a !! t)
        /\ (forall old, tasks_db state_a !! nth 1 parts "" = Some old ->
              exists new,
                tasks_db s' !! nth 1 parts "" = Some new
                /\ new = Task.with_status (Task.status new) old))
  /\ (forall t old new,
        tasks_db state_a !! t = Some old ->
        tasks_db s' !! t = Some new ->
        new = Task.with_status (Task.status new) old).
Proof.
  apply (field_frame_without_collision env_d bob "create Book flights" state_a).
  intros _. vm_compute. reflexivity.
Defined.
